(** * webapp/views.py: basket, checkout, order listing and product soft-delete

    A shallow embedding of the views of the storefront.  The database is a
    record of three tables, the session is the pair of keys the views read
    and write, and a view is a function from the state it reads to the state
    it leaves and its response, or to the exception it raises.  A request
    that raises answers an error page: the rows it wrote before stay in
    the database, each statement being committed on its own, and its
    session is not saved. *)

From Stdlib Require Import ZArith List Ascii String Lia Permutation Sorted.
From stdpp Require Import base option list gmap strings sorting relations.
Import ListNotations.

Set Warnings "-clear-no-such-hyp".

Local Open Scope string_scope.
Local Open Scope list_scope.
Local Open Scope Z_scope.

(** ** Exceptions and results *)

Inductive Exception :=
  | Http404          (* raised by get_object_or_404 and get_object *)
  | DoesNotExist     (* raised by Model.objects.get *)
  | ValueError       (* raised by int() and by a pk lookup on a non-number *)
  | AttributeError   (* AnonymousUser has no reverse relation [orders] *)
  | OverflowError    (* raised by the database driver for a key beyond its integers *)
  | IntegrityError   (* raised by an INSERT whose foreign key has no row *)
  | NoReverseMatch.  (* raised by redirect for a target that is no view name and no URL *)

Inductive result (A : Type) :=
  | Ok (a : A)
  | Raise (e : Exception).
Arguments Ok {A} a.
Arguments Raise {A} e.

#[global] Instance result_ret : MRet result := fun A a => Ok a.
#[global] Instance result_bind : MBind result := fun A B f m =>
  match m with
  | Ok a => f a
  | Raise e => Raise e
  end.

Definition raises {A} (r : result A) : Prop := ∃ e, r = Raise e.

(** ** Models (webapp.models, as the views use them) *)

(** Product: the fields listed by ProductCreateView.fields.  [price] is a
    DecimalField; it is kept as an integer number of its smallest unit. *)
Record Product := {
  name : string;
  category : string;
  price : Z;
  photo : string;
  in_order : bool
}.

(** Modelled from the spec: webapp/models.py is not part of the sources.
    The status of an order is new, delivered or canceled; the views write
    the last two. *)
Inductive Status := status_new | status_delivered | status_canceled.

(** Order: the fields listed by OrderCreateView.fields, the status written
    by the deliver and cancel views, and the timestamp the list is ordered
    by.  [user] is the owner (reverse relation [orders]). *)
Record Order := {
  order_pk : Z;
  user : option Z;
  first_name : string;
  last_name : string;
  phone : string;
  email : string;
  status : Status;
  created_at : Z
}.

(** OrderProduct: the keyword arguments of OrderProduct.objects.create.
    [product_id] is the integer key of the product, a foreign key into the
    product table. *)
Record OrderProduct := {
  product_id : Z;
  order : Z;
  amount : nat
}.

Record DB := {
  product_table : gmap Z Product;
  order_table : list Order;            (* rows in storage order *)
  order_product_table : list OrderProduct
}.

(** ** Request data *)

(** request.session, restricted to the two keys the views touch. *)
Record Session := {
  products : option (list string);
  products_count : option nat
}.

Definition empty_session : Session :=
  {| products := None; products_count := None |}.

(** request.GET of the basket-change route. *)
Record QueryDict := {
  GET_pk : option string;
  GET_action : option string;
  GET_next : option string
}.

(** request.user *)
Record User := {
  user_pk : Z;
  permissions : list string       (* what has_perm answers True for *)
}.

Inductive RequestUser :=
  | AnonymousUser
  | Authenticated (u : User).

Definition has_perm (u : RequestUser) (perm : string) : bool :=
  match u with
  | AnonymousUser => false
  | Authenticated u => bool_decide (perm ∈ permissions u)
  end.

Definition request_user_pk (u : RequestUser) : option Z :=
  match u with
  | AnonymousUser => None
  | Authenticated u => Some (user_pk u)
  end.

(** ** Responses *)

Inductive Url :=
  | reverse (viewname : string)
  | url (s : string).

(** A line of the basket shown by the basket template. *)
Record BasketLine := {
  product : Product;
  qty : nat;
  total : Z
}.

Inductive HttpResponse :=
  | redirect (to : Url)
  | render (template : string) (form_errors : list string)
           (basket : list BasketLine) (basket_total : Z).

(** ** The order form (webapp.forms.BasketOrderCreateForm) *)

(** Modelled from the spec: webapp/forms.py is not part of the sources.  The
    form carries the contact fields of the order and the errors its
    validation found; saving it creates one Order owned by the user the view
    handed to the form, with status new. *)
Record BasketOrderCreateForm := {
  form_first_name : string;
  form_last_name : string;
  form_phone : string;
  form_email : string;
  errors : list string
}.

Definition is_valid (form : BasketOrderCreateForm) : bool :=
  bool_decide (errors form = []).

(** form.add_error(None, message) *)
Definition add_error (form : BasketOrderCreateForm) (message : string)
  : BasketOrderCreateForm :=
  {| form_first_name := form_first_name form;
     form_last_name := form_last_name form;
     form_phone := form_phone form;
     form_email := form_email form;
     errors := errors form ++ [message] |}.

(** The key of an inserted row: above every key in the table. *)
Definition next_pk (pks : list Z) : Z := 1 + foldr Z.max 0 pks.

(** Modelled from the spec: BasketOrderCreateForm.save, in webapp/forms.py
    which is not part of the sources.  It creates the Order from the form
    input with the current user as owner: one INSERT into the order table,
    answering the new row. *)
Definition form_save (db : DB) (owner : RequestUser) (now : Z)
    (form : BasketOrderCreateForm) : DB * Order :=
  let object :=
    {| order_pk := next_pk (order_pk <$> order_table db);
       user := request_user_pk owner;
       first_name := form_first_name form;
       last_name := form_last_name form;
       phone := form_phone form;
       email := form_email form;
       status := status_new;
       created_at := now |} in
  ({| product_table := product_table db;
      order_table := order_table db ++ [object];
      order_product_table := order_product_table db |}, object).

(** ** The database driver and the URL resolver *)

(** The integers the database driver binds as a key: signed 64-bit.  A
    query or an INSERT with a larger one raises OverflowError. *)
Definition key_in_range (n : Z) : Prop := -2 ^ 63 ≤ n < 2 ^ 63.

#[global] Instance key_in_range_dec n : Decision (key_in_range n).
Proof. unfold key_in_range. apply _. Defined.

(** The routes urls.py names that take no argument, under the namespace
    of the application: the names reverse resolves without arguments. *)
Definition reversible_names : list string :=
  [ "webapp:index"; "webapp:product_create"; "webapp:basket_change";
    "webapp:basket"; "webapp:order_list"; "webapp:order_create" ].

(** c in s *)
Fixpoint contains (c : Ascii.ascii) (s : string) : bool :=
  match s with
  | EmptyString => false
  | String c' s' => bool_decide (c' = c) || contains c s'
  end.

(** django.shortcuts.redirect(to) for a target without arguments: a
    relative URL is itself, a view name is reversed, a string with neither
    a slash nor a dot that is no view name raises NoReverseMatch, any other
    string is taken as a URL.  A path that reverse has answered is a URL. *)
Definition shortcuts_redirect (to : Url) : result HttpResponse :=
  match to with
  | reverse viewname => Ok (redirect (reverse viewname))
  | url s =>
      if String.prefix "./" s || String.prefix "../" s then
        Ok (redirect (url s))
      else if bool_decide (s ∈ reversible_names) then
        Ok (redirect (reverse s))
      else if negb (contains "/"%char s) && negb (contains "."%char s) then
        Raise NoReverseMatch
      else
        Ok (redirect (url s))
  end.

(** ** The views *)

(** The order of order_by('-created_at'): later rows first. *)
Definition created_after (a b : Order) : Prop := created_at b ≤ created_at a.

#[global] Instance created_after_dec a b : Decision (created_after a b) :=
  Z_le_dec (created_at b) (created_at a).


Definition basket_empty_message : string := "В корзине отсутствуют товары!".

Section Views.

(** Python's int() on a str, as the pk lookup and _prepare_basket apply it:
    [None] stands for ValueError. *)
Variable int : string → option Z.

(** Product.objects.get(pk=n) *)
Definition Product_objects_get (db : DB) (n : Z) : result Product :=
  match product_table db !! n with
  | Some p => Ok p
  | None => Raise DoesNotExist
  end.

(** get_object_or_404(Product, pk=pk), pk being the raw query value. *)
Definition get_object_or_404 (db : DB) (pk : option string) : result Product :=
  match pk with
  | None => Raise Http404
  | Some s =>
      match int s with
      | None => Raise ValueError
      | Some n =>
          if decide (key_in_range n) then
            match product_table db !! n with
            | Some p => Ok p
            | None => Raise Http404
            end
          else Raise OverflowError
      end
  end.

(** *** ProductDeleteView *)

Definition ProductDeleteView_delete (db : DB) (pk : Z)
  : result (DB * HttpResponse) :=
  match product_table db !! pk with
  | None => Raise Http404                           (* self.get_object() *)
  | Some product =>
      let product :=
        {| name := name product;
           category := category product;
           price := price product;
           photo := photo product;
           in_order := false |} in                   (* product.in_order = False *)
      Ok ({| product_table := <[pk := product]> (product_table db);   (* product.save() *)
             order_table := order_table db;
             order_product_table := order_product_table db |},
          redirect (reverse "webapp:index"))
  end.

(** *** BasketChangeView *)

(** request.session.get('products', []) *)
Definition session_get_products (session : Session) : list string :=
  default [] (products session).

(** list.remove(x): drops the first element equal to x. *)
Fixpoint list_remove (x : string) (l : list string) : list string :=
  match l with
  | [] => []
  | y :: l' => if decide (y = x) then l' else y :: list_remove x l'
  end.

(** The for loop of the remove branch over the remaining elements [rest]
    of [products]: at the first element equal to pk, remove and break. *)
Fixpoint remove_loop (pk : option string) (products rest : list string)
  : list string :=
  match rest with
  | [] => products
  | product_pk :: rest' =>
      if decide (Some product_pk = pk)
      then list_remove product_pk products
      else remove_loop pk products rest'
  end.

Definition BasketChangeView_get (db : DB) (GET : QueryDict) (session : Session)
  : result (Session * HttpResponse) :=
  let products := session_get_products session in
  let pk := GET_pk GET in
  let action := GET_action GET in
  let next_url := default (reverse "webapp:index") (url <$> GET_next GET) in
  products ←
    (if decide (action = Some "add") then
       product ← get_object_or_404 db pk;
       if in_order product
       then match pk with
            | Some pk => Ok (products ++ [pk])       (* products.append(pk) *)
            | None => Raise Http404                  (* excluded by the lookup *)
            end
       else Ok products
     else Ok (remove_loop pk products products));
  response ← shortcuts_redirect next_url;              (* after both writes *)
  Ok ({| products := Some products;
         products_count := Some (length products) |},
      response).

(** *** BasketView *)

(** totals[product_pk] += 1, preceded by totals[product_pk] = 0 for a new
    key.  The dict keeps its keys in insertion order. *)
Fixpoint totals_incr (product_pk : string) (totals : list (string * nat))
  : list (string * nat) :=
  match totals with
  | [] => [(product_pk, 1%nat)]
  | (k, n) :: totals' =>
      if decide (k = product_pk)
      then (k, S n) :: totals'
      else (k, n) :: totals_incr product_pk totals'
  end.

Definition _get_totals (session : Session) : list (string * nat) :=
  foldl (λ totals product_pk, totals_incr product_pk totals)
        [] (session_get_products session).

(** totals.get(pk, 0) *)
Fixpoint totals_get (totals : list (string * nat)) (pk : string) : nat :=
  match totals with
  | [] => 0%nat
  | (k, n) :: totals' => if decide (k = pk) then n else totals_get totals' pk
  end.

Definition _basket_empty (session : Session) : bool :=
  bool_decide (length (session_get_products session) = 0%nat).

(** The loop of _prepare_basket over totals.items(). *)
Fixpoint prepare_loop (db : DB) (items : list (string * nat))
    (basket : list BasketLine) (basket_total : Z)
  : result (list BasketLine * Z) :=
  match items with
  | [] => Ok (basket, basket_total)
  | (pk, qty) :: items' =>
      n ← from_option Ok (Raise ValueError) (int pk);
      product ← Product_objects_get db n;
      let total := price product * Z.of_nat qty in
      prepare_loop db items'
        (basket ++ [{| product := product; qty := qty; total := total |}])
        (basket_total + total)
  end.

Definition _prepare_basket (db : DB) (session : Session)
  : result (list BasketLine * Z) :=
  prepare_loop db (_get_totals session) [] 0.

(** OrderProduct.objects.create(product_id=pk, order=object, amount=qty):
    the reference is converted to the integer of the column, bound by the
    driver, and inserted if the product table has the row it points to. *)
Definition OrderProduct_objects_create (db : DB) (pk : string) (object : Order)
    (qty : nat) : result DB :=
  n ← from_option Ok (Raise ValueError) (int pk);
  if decide (key_in_range n) then
    match product_table db !! n with
    | Some _ =>
        Ok {| product_table := product_table db;
              order_table := order_table db;
              order_product_table :=
                order_product_table db
                ++ [{| product_id := n; order := order_pk object;
                       amount := qty |}] |}
    | None => Raise IntegrityError
    end
  else Raise OverflowError.

(** The loop of _save_order_products over totals.items(): one create per
    item.  It answers the database as the loop leaves it, and the
    exception of the create that stopped it, if one did: the rows created
    before stay. *)
Fixpoint save_loop (db : DB) (items : list (string * nat)) (object : Order)
  : DB * option Exception :=
  match items with
  | [] => (db, None)
  | (pk, qty) :: items' =>
      match OrderProduct_objects_create db pk object qty with
      | Ok db' => save_loop db' items' object
      | Raise e => (db, Some e)
      end
  end.

Definition _save_order_products (db : DB) (session : Session) (object : Order)
  : DB * option Exception :=
  save_loop db (_get_totals session) object.

Definition _clean_basket (session : Session) : Session :=
  let session :=
    if bool_decide (is_Some (products session))
    then {| products := None; products_count := products_count session |}
    else session in
  if bool_decide (is_Some (products_count session))
  then {| products := products session; products_count := None |}
  else session.

(** form_invalid: the basket page again, with the form's errors; its
    context is built by get_context_data, which calls _prepare_basket. *)
Definition form_invalid (db : DB) (session : Session)
    (form : BasketOrderCreateForm) : result (DB * Session * HttpResponse) :=
  '(basket, basket_total) ← _prepare_basket db session;
  Ok (db, session, render "product/basket.html" (errors form) basket basket_total).

Definition BasketView_form_valid (db : DB) (session : Session)
    (request_user : RequestUser) (now : Z) (form : BasketOrderCreateForm)
  : result (DB * Session * HttpResponse) :=
  if _basket_empty session then
    form_invalid db session (add_error form basket_empty_message)
  else
    let '(db, object) := form_save db request_user now form in   (* super().form_valid *)
    match _save_order_products db session object with
    | (db, None) =>
        let session := _clean_basket session in
        Ok (db, session, redirect (reverse "webapp:index"))
    | (_, Some e) => Raise e
    end.

(** The inherited post: the form decides between form_valid and
    form_invalid. *)
Definition BasketView_post (db : DB) (session : Session)
    (request_user : RequestUser) (now : Z) (form : BasketOrderCreateForm)
  : result (DB * Session * HttpResponse) :=
  if is_valid form
  then BasketView_form_valid db session request_user now form
  else form_invalid db session form.

(** The database and the session a checkout request leaves.  When a
    create of _save_order_products raises, the order and the rows created
    before it stay in the database, and the session, not cleared and not
    saved, is as it was. *)
Definition BasketView_post_leaves (db : DB) (session : Session)
    (request_user : RequestUser) (now : Z) (form : BasketOrderCreateForm)
  : DB * Session :=
  match BasketView_post db session request_user now form with
  | Ok (db', session', _) => (db', session')
  | Raise _ =>
      if is_valid form && negb (_basket_empty session) then
        let '(db, object) := form_save db request_user now form in
        ((_save_order_products db session object).1, session)
      else (db, session)
  end.

(** *** OrderListView *)

(** order_by('-created_at') *)
Definition order_by_created_at_desc (rows : list Order) : list Order :=
  merge_sort created_after rows.

Definition OrderListView_get_queryset (db : DB) (request_user : RequestUser)
  : result (list Order) :=
  if has_perm request_user "webapp.view_order" then
    Ok (order_by_created_at_desc (order_table db))
  else
    match request_user with
    | AnonymousUser => Raise AttributeError
    | Authenticated u =>
        Ok (filter (λ o, user o = Some (user_pk u)) (order_table db))
    end.

End Views.

(** ** Runs of requests *)

Inductive basket_op :=
  | Add (pk : string)
  | Remove (pk : string).

#[global] Instance basket_op_eq_dec : EqDecision basket_op.
Proof. solve_decision. Defined.

Definition request_of (op : basket_op) : QueryDict :=
  match op with
  | Add pk => {| GET_pk := Some pk; GET_action := Some "add"; GET_next := None |}
  | Remove pk => {| GET_pk := Some pk; GET_action := Some "remove"; GET_next := None |}
  end.

(** One request of the basket-change route; a request that raises leaves
    the session as it was. *)
Definition apply_op (int : string → option Z) (db : DB) (session : Session)
    (op : basket_op) : Session :=
  match BasketChangeView_get int db (request_of op) session with
  | Ok (session', _) => session'
  | Raise _ => session
  end.

Definition run_ops (int : string → option Z) (db : DB) (ops : list basket_op)
  : Session :=
  foldl (apply_op int db) empty_session ops.

(** A request that reads or writes the basket keys of a session. *)
Inductive session_request :=
  | basket_change (db : DB) (GET : QueryDict)
  | basket_checkout (db : DB) (request_user : RequestUser) (now : Z)
                    (form : BasketOrderCreateForm).

(** The session a request leaves; the session of a request that raises is
    not saved. *)
Definition serve (int : string → option Z) (session : Session)
    (request : session_request) : Session :=
  match request with
  | basket_change db GET =>
      match BasketChangeView_get int db GET session with
      | Ok (session', _) => session'
      | Raise _ => session
      end
  | basket_checkout db request_user now form =>
      match BasketView_post int db session request_user now form with
      | Ok (_, session', _) => session'
      | Raise _ => session
      end
  end.

(** ** Notions used in the statements *)

(** Aggregate: the quantity _get_totals records for a reference. *)
Definition aggregate_quantity (session : Session) (pk : string) : nat :=
  totals_get (_get_totals session) pk.

(** How many times the reference [pk] occurs in a list of references. *)
Definition occurrences (pk : string) (l : list string) : nat :=
  length (filter (λ x, x = pk) l).

(** The product a reference denotes is in the catalog and can be bought:
    the lookup of an add finds it, and it is in_order. *)
Definition purchasable (int : string → option Z) (db : DB) (pk : string) : bool :=
  match get_object_or_404 int db (Some pk) with
  | Ok p => in_order p
  | Raise _ => false
  end.

Definition count_add (pk : string) (ops : list basket_op) : nat :=
  length (filter (λ op, op = Add pk) ops).

Definition count_remove (pk : string) (ops : list basket_op) : nat :=
  length (filter (λ op, op = Remove pk) ops).

(** The quantity as the difference of the two counts, floored at 0. *)
Definition difference_floored (pk : string) (ops : list basket_op) : Z :=
  Z.max 0 (Z.of_nat (count_add pk ops) - Z.of_nat (count_remove pk ops)).

(** The quantity of [pk] replayed over the operations: an Add of a product
    that can be bought adds one, a Remove takes one away unless none is
    left. *)
Definition replay_step (int : string → option Z) (db : DB) (pk : string)
    (q : nat) (op : basket_op) : nat :=
  match op with
  | Add p => if decide (p = pk) then (if purchasable int db p then S q else q) else q
  | Remove p => if decide (p = pk) then Nat.pred q else q
  end.

Definition replay_quantity (int : string → option Z) (db : DB) (pk : string)
    (ops : list basket_op) : nat :=
  foldl (replay_step int db pk) 0%nat ops.

Definition sum_Z (l : list Z) : Z := foldr Z.add 0 l.

(** The row a reference denotes when the totals are computed. *)
Definition lookup_row (int : string → option Z) (db : DB) (pk : string)
  : option Product :=
  match int pk with
  | Some n => product_table db !! n
  | None => None
  end.

(** A basket line shows an entry of the totals: the product found for the
    reference, the quantity, and price times quantity. *)
Definition line_of_entry (int : string → option Z) (db : DB)
    (line : BasketLine) (entry : string * nat) : Prop :=
  lookup_row int db entry.1 = Some (product line)
  ∧ qty line = entry.2
  ∧ total line = price (product line) * Z.of_nat (qty line).

(** The lookup of an add finds the product a reference denotes: the
    reference reads as a key the driver binds, and the table has the row. *)
Definition add_finds (int : string → option Z) (db : DB) (pk : string) : Prop :=
  ∃ p, get_object_or_404 int db (Some pk) = Ok p.

(** [row] is the row _save_order_products creates for an entry of the
    totals: for the product the reference denotes and for the order, with
    the quantity of the entry as amount. *)
Definition row_of_entry (int : string → option Z) (object : Order)
    (row : OrderProduct) (entry : string * nat) : Prop :=
  int entry.1 = Some (product_id row)
  ∧ order row = order_pk object
  ∧ amount row = entry.2.


(** The count key, when present, is the length of the list of references. *)
Definition count_consistent (session : Session) : Prop :=
  match products_count session with
  | Some n => n = length (session_get_products session)
  | None => True
  end.

(** Both keys are present, the count being the length, or both absent. *)
Definition keys_together (session : Session) : Prop :=
  match products session, products_count session with
  | Some l, Some n => n = length l
  | None, None => True
  | _, _ => False
  end.

(** ** Data for the examples *)

(** An instance of [int]: it reads a string of decimal digits as Python's
    int() does, and reads no other string. *)
Definition digit_value (c : Ascii.ascii) : option Z :=
  let n := Z.of_nat (Ascii.nat_of_ascii c) in
  if bool_decide (48 ≤ n ≤ 57) then Some (n - 48) else None.

Fixpoint decimal_loop (acc : Z) (s : string) : option Z :=
  match s with
  | EmptyString => Some acc
  | String c s' =>
      match digit_value c with
      | Some d => decimal_loop (10 * acc + d) s'
      | None => None
      end
  end.

Definition decimal_int (s : string) : option Z :=
  match s with
  | EmptyString => None
  | _ => decimal_loop 0 s
  end.

(** Product 7 at 10.00 and product 3 at 5.00. *)
Definition pizza : Product :=
  {| name := "pizza"; category := "food"; price := 1000; photo := "pizza.png";
     in_order := true |}.

Definition cola : Product :=
  {| name := "cola"; category := "drink"; price := 500; photo := "cola.png";
     in_order := true |}.

Definition catalog : DB :=
  {| product_table := {[ 7 := pizza; 3 := cola ]};
     order_table := [];
     order_product_table := [] |}.

(** The catalog after product 7 has been deleted through the delete view. *)
Definition catalog_without_pizza : DB :=
  match ProductDeleteView_delete catalog 7 with
  | Ok (db, _) => db
  | Raise _ => catalog
  end.

(** The catalog with the row of product 7 removed from the table. *)
Definition catalog_row_removed : DB :=
  {| product_table := delete 7 (product_table catalog);
     order_table := [];
     order_product_table := [] |}.


(** A basket with the references 7, 7 and 3. *)
Definition basket_773 : Session :=
  {| products := Some ["7"; "7"; "3"]; products_count := Some 3%nat |}.

(** A customer without the permission to view all orders, and a form that
    passed validation. *)
Definition alice : RequestUser :=
  Authenticated {| user_pk := 1; permissions := [] |}.

Definition order_form : BasketOrderCreateForm :=
  {| form_first_name := "Alice"; form_last_name := "A"; form_phone := "555";
     form_email := "alice@example.org"; errors := [] |}.

Definition rejected_form : BasketOrderCreateForm :=
  {| form_first_name := "Alice"; form_last_name := "A"; form_phone := "";
     form_email := "alice"; errors := ["phone: required"; "email: invalid"] |}.

(** Two orders of the same customer, the second placed after the first. *)
Definition first_order : Order :=
  {| order_pk := 1; user := Some 1; first_name := "Alice"; last_name := "A";
     phone := "555"; email := "alice@example.org"; status := status_new;
     created_at := 100 |}.

Definition second_order : Order :=
  {| order_pk := 2; user := Some 1; first_name := "Alice"; last_name := "A";
     phone := "555"; email := "alice@example.org"; status := status_new;
     created_at := 200 |}.

Definition two_orders : DB :=
  {| product_table := product_table catalog;
     order_table := [first_order; second_order];
     order_product_table := [] |}.

(** ** Further views *)

(** IndexView.get_queryset: Product.objects.filter(in_order=True), the rows
    by their key (the query has no ordering). *)
Definition IndexView_get_queryset (db : DB) : gmap Z Product :=
  filter (λ row, in_order row.2 = true) (product_table db).



(** get_object_or_404(Order, pk=pk) *)
Definition Order_get_object_or_404 (db : DB) (pk : Z) : result Order :=
  match list_find (λ o, order_pk o = pk) (order_table db) with
  | Some (_, o) => Ok o
  | None => Raise Http404
  end.

(** order.save() of a row read from the table: UPDATE ... WHERE id = pk. *)
Definition Order_save (db : DB) (object : Order) : DB :=
  {| product_table := product_table db;
     order_table :=
       (λ row, if decide (order_pk row = order_pk object) then object else row)
         <$> order_table db;
     order_product_table := order_product_table db |}.

Definition set_status (object : Order) (new_status : Status) : Order :=
  {| order_pk := order_pk object;
     user := user object;
     first_name := first_name object;
     last_name := last_name object;
     phone := phone object;
     email := email object;
     status := new_status;
     created_at := created_at object |}.

(** reverse('webapp:order_detail', kwargs={'pk': pk}): the view name and the
    key; the two status views answer this value itself. *)
Definition order_detail_url (pk : Z) : string * Z := ("webapp:order_detail", pk).

Definition OrderDeliverView_get (db : DB) (pk : Z) : result (DB * (string * Z)) :=
  order ← Order_get_object_or_404 db pk;
  let order := set_status order status_delivered in     (* order.status = 'delivered' *)
  Ok (Order_save db order, order_detail_url (order_pk order)).

Definition OrderCancelView_get (db : DB) (pk : Z) : result (DB * (string * Z)) :=
  order ← Order_get_object_or_404 db pk;
  let order := set_status order status_canceled in      (* order.status = 'canceled' *)
  Ok (Order_save db order, order_detail_url (order_pk order)).

(** ** Runs of requests over the database and the session *)

Inductive shop_request :=
  | request_basket_change (GET : QueryDict)
  | request_checkout (request_user : RequestUser) (now : Z)
                     (form : BasketOrderCreateForm)
  | request_product_delete (pk : Z)
  | request_order_deliver (pk : Z)
  | request_order_cancel (pk : Z).

(** The database and the session one request leaves.  Of the views that
    raise, only the checkout has written to the database by then. *)
Definition shop_serve (int : string → option Z) (state : DB * Session)
    (request : shop_request) : DB * Session :=
  let '(db, session) := state in
  match request with
  | request_basket_change GET =>
      match BasketChangeView_get int db GET session with
      | Ok (session', _) => (db, session')
      | Raise _ => state
      end
  | request_checkout request_user now form =>
      BasketView_post_leaves int db session request_user now form
  | request_product_delete pk =>
      match ProductDeleteView_delete db pk with
      | Ok (db', _) => (db', session)
      | Raise _ => state
      end
  | request_order_deliver pk =>
      match OrderDeliverView_get db pk with
      | Ok (db', _) => (db', session)
      | Raise _ => state
      end
  | request_order_cancel pk =>
      match OrderCancelView_get db pk with
      | Ok (db', _) => (db', session)
      | Raise _ => state
      end
  end.

(** ** Further notions used in the statements *)

(** The distinct elements of [l] not in [seen], each at its first
    occurrence. *)
Fixpoint first_occurrences (seen l : list string) : list string :=
  match l with
  | [] => []
  | x :: l' =>
      if decide (x ∈ seen)
      then first_occurrences seen l'
      else x :: first_occurrences (seen ++ [x]) l'
  end.

(** The price of the row a reference denotes, 0 when it denotes none. *)
Definition reference_price (int : string → option Z) (db : DB) (pk : string) : Z :=
  from_option price 0 (lookup_row int db pk).

(** Every reference of the basket has its row in the product table. *)
Definition basket_resolves (int : string → option Z) (state : DB * Session)
  : Prop :=
  ∀ pk, pk ∈ session_get_products state.2 → is_Some (lookup_row int state.1 pk).

(** The shape the two status views share: the order of the route is read,
    its status set and the row saved. *)
Definition status_view (new_status : Status) (db : DB) (pk : Z)
  : result (DB * (string * Z)) :=
  order ← Order_get_object_or_404 db pk;
  Ok (Order_save db (set_status order new_status),
      order_detail_url (order_pk (set_status order new_status))).


(** A member of staff, with the permission to view all orders. *)
Definition manager : RequestUser :=
  Authenticated {| user_pk := 2; permissions := ["webapp.view_order"] |}.

(** * Properties *)

(** ** Lists of references *)

Lemma occurrences_nil pk : occurrences pk [] = 0%nat.
Proof. reflexivity. Qed.

Lemma occurrences_cons pk x l :
  occurrences pk (x :: l) =
  if decide (x = pk) then S (occurrences pk l) else occurrences pk l.
Proof.
  unfold occurrences. rewrite filter_cons. by destruct (decide (x = pk)).
Qed.

Lemma occurrences_snoc pk x l :
  occurrences pk (l ++ [x]) =
  if decide (x = pk) then S (occurrences pk l) else occurrences pk l.
Proof.
  unfold occurrences. rewrite filter_app, length_app, filter_cons.
  destruct (decide (x = pk)); simpl; lia.
Qed.

Lemma occurrences_zero pk l : pk ∉ l ↔ occurrences pk l = 0%nat.
Proof.
  induction l as [|x l IH].
  - split; [done|]. intros _. apply not_elem_of_nil.
  - rewrite occurrences_cons, not_elem_of_cons.
    destruct (decide (x = pk)) as [->|Hne].
    + split; [intros [? _]; congruence|lia].
    + rewrite <- IH. split; [by intros [_ ?]|]. intros ?; split; congruence.
Qed.

Lemma list_remove_absent pk l : pk ∉ l → list_remove pk l = l.
Proof.
  induction l as [|x l IH]; [done|]. rewrite not_elem_of_cons. intros [Hne Hl].
  simpl. destruct (decide (x = pk)); [congruence|]. by rewrite IH.
Qed.

Lemma occurrences_list_remove pk x l :
  occurrences pk (list_remove x l) =
  if decide (x = pk) then Nat.pred (occurrences pk l) else occurrences pk l.
Proof.
  induction l as [|y l IH]; [by destruct (decide (x = pk))|].
  simpl. destruct (decide (y = x)) as [->|Hyx].
  - rewrite occurrences_cons. by destruct (decide (x = pk)).
  - rewrite !occurrences_cons, IH.
    destruct (decide (x = pk)) as [->|]; [|done].
    destruct (decide (y = pk)); [congruence|done].
Qed.

Lemma remove_loop_spec pk products rest :
  remove_loop (Some pk) products rest =
  if decide (pk ∈ rest) then list_remove pk products else products.
Proof.
  induction rest as [|x rest IH]; cbn [remove_loop].
  - destruct (decide (pk ∈ [])) as [H|]; [|done]. by apply not_elem_of_nil in H.
  - destruct (decide (Some x = Some pk)) as [[= ->]|Hne].
    + destruct (decide (pk ∈ pk :: rest)) as [|Hn]; [done|].
      exfalso. apply Hn. left.
    + rewrite IH.
      destruct (decide (pk ∈ rest)) as [Hin|Hnin];
        destruct (decide (pk ∈ x :: rest)) as [Hin'|Hnin']; try done.
      * exfalso. apply Hnin'. by right.
      * apply elem_of_cons in Hin' as [->|?]; [by destruct Hne|done].
Qed.

(** The loop of the remove branch is list.remove of the first match. *)
Lemma remove_loop_list_remove pk products :
  remove_loop (Some pk) products products = list_remove pk products.
Proof.
  rewrite remove_loop_spec. destruct (decide (pk ∈ products)); [done|].
  by rewrite list_remove_absent.
Qed.

Lemma remove_loop_None products rest : remove_loop None products rest = products.
Proof.
  induction rest as [|x rest IH]; cbn [remove_loop]; [done|].
  by destruct (decide (Some x = None)).
Qed.

(** ** The totals dict *)

Lemma totals_get_incr p totals k :
  totals_get (totals_incr p totals) k =
  if decide (p = k) then S (totals_get totals k) else totals_get totals k.
Proof.
  induction totals as [|[k' n] totals IH]; simpl.
  - by destruct (decide (p = k)).
  - destruct (decide (k' = p)) as [->|Hne]; simpl.
    + by destruct (decide (p = k)).
    + rewrite IH. destruct (decide (k' = k)) as [->|]; [|done].
      by rewrite decide_False.
Qed.

Lemma totals_get_foldl l totals k :
  totals_get (foldl (λ totals p, totals_incr p totals) totals l) k =
  (totals_get totals k + occurrences k l)%nat.
Proof.
  revert totals. induction l as [|x l IH]; intros totals; simpl.
  - rewrite occurrences_nil. lia.
  - rewrite IH, totals_get_incr, occurrences_cons.
    destruct (decide (x = k)); lia.
Qed.

(** Aggregate counts the occurrences of a reference in the basket. *)
Lemma aggregate_quantity_occurrences session pk :
  aggregate_quantity session pk = occurrences pk (session_get_products session).
Proof. unfold aggregate_quantity, _get_totals. by rewrite totals_get_foldl. Qed.

Lemma totals_incr_keys p totals k :
  k ∈ (totals_incr p totals).*1 ↔ k = p ∨ k ∈ totals.*1.
Proof.
  induction totals as [|[k' n] totals IH]; cbn [totals_incr].
  - set_solver.
  - destruct (decide (k' = p)) as [->|Hne]; set_solver.
Qed.

Lemma totals_incr_NoDup p totals :
  NoDup totals.*1 → NoDup (totals_incr p totals).*1.
Proof.
  induction totals as [|[k' n] totals IH]; simpl.
  - intros _. apply NoDup_singleton.
  - rewrite NoDup_cons. intros [Hk Hnd].
    destruct (decide (k' = p)) as [->|Hne]; simpl; rewrite NoDup_cons.
    + done.
    + split; [|by apply IH]. rewrite totals_incr_keys. naive_solver.
Qed.

Lemma get_totals_keys session k :
  k ∈ (_get_totals session).*1 ↔ k ∈ session_get_products session.
Proof.
  unfold _get_totals.
  assert (∀ l totals,
    k ∈ (foldl (λ totals p, totals_incr p totals) totals l).*1
    ↔ k ∈ totals.*1 ∨ k ∈ l) as H.
  { induction l as [|x l IH]; intros totals; simpl.
    - set_solver.
    - rewrite IH, totals_incr_keys. set_solver. }
  rewrite H. set_solver.
Qed.

Lemma get_totals_NoDup session : NoDup (_get_totals session).*1.
Proof.
  unfold _get_totals.
  assert (∀ l totals, NoDup totals.*1 →
    NoDup (foldl (λ totals p, totals_incr p totals) totals l).*1) as H.
  { induction l as [|x l IH]; intros totals Hnd; simpl; [done|].
    by apply IH, totals_incr_NoDup. }
  apply H, NoDup_nil_2.
Qed.

(** In a dict, the value listed with a key is the value the key gets. *)
Lemma totals_get_item totals k n :
  NoDup totals.*1 → (k, n) ∈ totals → totals_get totals k = n.
Proof.
  induction totals as [|[k' n'] totals IH]; simpl.
  - intros _ H. by apply elem_of_nil in H.
  - rewrite NoDup_cons, elem_of_cons. intros [Hk Hnd] [[= <- <-]|Hin].
    + by rewrite decide_True.
    + rewrite decide_False; [by apply IH|].
      intros ->. apply Hk. apply list_elem_of_fmap. by exists (k, n).
Qed.

Lemma totals_item_get totals k :
  k ∈ totals.*1 → (k, totals_get totals k) ∈ totals.
Proof.
  induction totals as [|[k' n'] totals IH]; simpl.
  - intros H. by apply elem_of_nil in H.
  - rewrite elem_of_cons. intros [->|Hin].
    + rewrite decide_True; [left|done].
    + destruct (decide (k' = k)) as [->|]; [left|right; by apply IH].
Qed.

(** The items of _get_totals: every reference of the basket once, with the
    number of its occurrences. *)
Lemma get_totals_items session k n :
  (k, n) ∈ _get_totals session ↔
  k ∈ session_get_products session ∧
  n = occurrences k (session_get_products session).
Proof.
  rewrite <- aggregate_quantity_occurrences. unfold aggregate_quantity. split.
  - intros Hin. split.
    + apply get_totals_keys, list_elem_of_fmap. by exists (k, n).
    + symmetry. by apply totals_get_item; [apply get_totals_NoDup|].
  - intros [Hin ->]. by apply totals_item_get, get_totals_keys.
Qed.

(** ** BasketChangeView.get *)

Section BasketChange.

Variable int : string → option Z.


(** A target with a slash in it always resolves. *)
Lemma shortcuts_redirect_slash s :
  contains "/"%char s = true → ∃ response, shortcuts_redirect (url s) = Ok response.
Proof.
  intros Hslash. cbn. rewrite Hslash. cbn.
  repeat case_match; by eexists.
Qed.

(** What an add request does, by the lookup and the redirect. *)
Lemma BasketChangeView_get_add db session pk next :
  BasketChangeView_get int db
    {| GET_pk := Some pk; GET_action := Some "add"; GET_next := next |} session =
  match get_object_or_404 int db (Some pk) with
  | Raise e => Raise e
  | Ok p =>
      let l := if in_order p
               then session_get_products session ++ [pk]
               else session_get_products session in
      match shortcuts_redirect (default (reverse "webapp:index") (url <$> next)) with
      | Ok response =>
          Ok ({| products := Some l; products_count := Some (length l) |}, response)
      | Raise e => Raise e
      end
  end.
Proof.
  unfold BasketChangeView_get. cbn [GET_pk GET_action GET_next].
  rewrite decide_True by done.
  destruct (get_object_or_404 int db (Some pk)) as [p|e]; [|done].
  cbn. by destruct (in_order p).
Qed.

(** What a request with any other action does. *)
Lemma BasketChangeView_get_remove db session pk action next :
  action ≠ Some "add" →
  BasketChangeView_get int db
    {| GET_pk := Some pk; GET_action := action; GET_next := next |} session =
  let l := list_remove pk (session_get_products session) in
  match shortcuts_redirect (default (reverse "webapp:index") (url <$> next)) with
  | Ok response =>
      Ok ({| products := Some l; products_count := Some (length l) |}, response)
  | Raise e => Raise e
  end.
Proof.
  intros Hne. unfold BasketChangeView_get. cbn [GET_pk GET_action GET_next].
  destruct (decide (action = Some "add")) as [|_]; [done|].
  cbn. by rewrite remove_loop_list_remove.
Qed.

Lemma apply_op_Add db session pk :
  session_get_products (apply_op int db session (Add pk)) =
  if purchasable int db pk
  then session_get_products session ++ [pk]
  else session_get_products session.
Proof.
  unfold apply_op, purchasable. cbn [request_of].
  rewrite BasketChangeView_get_add.
  destruct (get_object_or_404 int db (Some pk)) as [p|e]; [|done].
  cbn. by destruct (in_order p).
Qed.

Lemma apply_op_Remove db session pk :
  session_get_products (apply_op int db session (Remove pk)) =
  list_remove pk (session_get_products session).
Proof.
  unfold apply_op. cbn [request_of].
  by rewrite BasketChangeView_get_remove.
Qed.

(** One request moves each quantity as one step of the replay. *)
Lemma aggregate_quantity_apply_op db session op pk :
  aggregate_quantity (apply_op int db session op) pk =
  replay_step int db pk (aggregate_quantity session pk) op.
Proof.
  rewrite !aggregate_quantity_occurrences.
  destruct op as [p|p]; cbn [replay_step].
  - rewrite apply_op_Add. destruct (purchasable int db p).
    + by rewrite occurrences_snoc.
    + by destruct (decide (p = pk)).
  - by rewrite apply_op_Remove, occurrences_list_remove.
Qed.

Lemma aggregate_quantity_foldl db ops session pk :
  aggregate_quantity (foldl (apply_op int db) session ops) pk =
  foldl (replay_step int db pk) (aggregate_quantity session pk) ops.
Proof.
  revert session. induction ops as [|op ops IH]; intros session; [done|].
  cbn [foldl]. by rewrite IH, aggregate_quantity_apply_op.
Qed.

(** C3 (amended): on a basket that starts empty, the quantity Aggregate
    gives for a product is the one obtained by replaying the operations in
    order from 0, an Add of a purchasable product adding one and a Remove
    taking one away unless the quantity is already 0; in particular a
    Remove leaves the quantity at max(0, q - 1), never below 0. *)
Theorem aggregate_quantity_replay db ops pk :
  aggregate_quantity (run_ops int db ops) pk = replay_quantity int db pk ops
  ∧ ∀ session,
      Z.of_nat (aggregate_quantity (apply_op int db session (Remove pk)) pk)
      = Z.max 0 (Z.of_nat (aggregate_quantity session pk) - 1).
Proof.
  split.
  - unfold run_ops, replay_quantity. by rewrite aggregate_quantity_foldl.
  - intros session. rewrite aggregate_quantity_apply_op. cbn [replay_step].
    rewrite decide_True by done. lia.
Qed.


End BasketChange.

Example run_remove_then_add :
  session_get_products (run_ops decimal_int catalog [Remove "7"; Add "7"]) = ["7"].
Proof. vm_compute. reflexivity. Qed.

(** C3 as stated fails: Remove on a basket without the product does
    nothing, so Remove 7 followed by Add 7 leaves quantity 1, while one Add
    minus one Remove is 0. *)
Lemma aggregate_quantity_not_difference :
  Z.of_nat (aggregate_quantity
              (run_ops decimal_int catalog [Remove "7"; Add "7"]) "7") = 1
  ∧ difference_floored "7" [Remove "7"; Add "7"] = 0
  ∧ ¬ ∀ db ops pk,
        Z.of_nat (aggregate_quantity (run_ops decimal_int db ops) pk)
        = difference_floored pk ops.
Proof.
  split; [by vm_compute|]. split; [by vm_compute|].
  intros H. specialize (H catalog [Remove "7"; Add "7"] "7").
  vm_compute in H. discriminate H.
Qed.


(** ** BasketView: totals *)

Section Totals.

Variable int : string → option Z.

Lemma prepare_loop_found db items basket basket_total :
  Forall (λ entry, is_Some (lookup_row int db entry.1)) items →
  ∃ lines,
    prepare_loop int db items basket basket_total =
      Ok (basket ++ lines, basket_total + sum_Z (total <$> lines))
    ∧ Forall2 (line_of_entry int db) lines items.
Proof.
  intros Hall. revert basket basket_total.
  induction Hall as [|[pk q] items [p Hp] _ IH]; intros basket basket_total.
  - exists []. cbn. rewrite app_nil_r, Z.add_0_r. by split.
  - unfold lookup_row in Hp. cbn [fst] in Hp. cbn [prepare_loop].
    destruct (int pk) as [n|] eqn:Hn; [|done]. cbn.
    unfold Product_objects_get. rewrite Hp. cbn.
    destruct (IH (basket ++ [{| product := p; qty := q;
                               total := price p * Z.of_nat q |}])
                 (basket_total + price p * Z.of_nat q)) as (lines & -> & Hlines).
    exists ({| product := p; qty := q; total := price p * Z.of_nat q |} :: lines).
    split.
    + rewrite <- app_assoc. unfold sum_Z. cbn. by rewrite Z.add_assoc.
    + constructor; [|done]. unfold line_of_entry, lookup_row. cbn. by rewrite Hn.
Qed.

Lemma prepare_loop_missing db items basket basket_total :
  Forall (λ entry, is_Some (int entry.1)) items →
  Exists (λ entry, lookup_row int db entry.1 = None) items →
  prepare_loop int db items basket basket_total = Raise DoesNotExist.
Proof.
  intros Hparse Hex. revert basket basket_total.
  induction Hparse as [|[pk q] items [n Hn] _ IH]; intros basket basket_total.
  - by apply Exists_nil in Hex.
  - cbn [fst] in Hn. cbn [prepare_loop]. rewrite Hn. cbn.
    unfold Product_objects_get.
    destruct (product_table db !! n) as [p|] eqn:Hp; [|done]. cbn.
    apply Exists_cons in Hex as [Hhd|Htl]; [|by apply IH].
    unfold lookup_row in Hhd. cbn [fst] in Hhd. rewrite Hn in Hhd. congruence.
Qed.

Lemma sum_Z_lines lines :
  Forall (λ line, total line = price (product line) * Z.of_nat (qty line)) lines →
  sum_Z (total <$> lines) =
  sum_Z ((λ line, price (product line) * Z.of_nat (qty line)) <$> lines).
Proof.
  induction 1 as [|line lines Hline _ IH]; [done|].
  cbn. unfold sum_Z in IH. by rewrite IH, Hline.
Qed.

(** C5: when every reference of the basket has its product, _prepare_basket
    answers one line per entry of the totals, each with the product found
    in the database it is given, and a total that is the sum over these
    lines of price times quantity. *)
Theorem prepare_basket_total db session :
  (∀ pk, pk ∈ session_get_products session → is_Some (lookup_row int db pk)) →
  ∃ basket,
    _prepare_basket int db session =
      Ok (basket,
          sum_Z ((λ line, price (product line) * Z.of_nat (qty line)) <$> basket))
    ∧ Forall2 (line_of_entry int db) basket (_get_totals session).
Proof.
  intros Hall.
  destruct (prepare_loop_found db (_get_totals session) [] 0)
    as (lines & Heq & Hlines).
  { apply Forall_forall. intros [pk q] Hin. apply Hall, get_totals_keys.
    apply list_elem_of_fmap. by exists (pk, q). }
  exists lines. split; [|done]. unfold _prepare_basket. rewrite Heq.
  cbn. f_equal. f_equal. apply sum_Z_lines.
  clear Heq. induction Hlines as [|line entry lines items Hl _ IH]; [done|].
  constructor; [apply Hl|done].
Qed.

(** C6 (amended): on a basket whose references all read as product ids,
    _prepare_basket raises DoesNotExist, answering no basket at all, as
    soon as some reference has no row in the product table; and it answers
    the basket when every reference has a row, whatever the in_order of the
    rows: a product whose in_order was cleared is found and priced like any
    other. *)
Theorem prepare_basket_missing_row db session :
  (∀ pk, pk ∈ session_get_products session → is_Some (int pk)) →
  ((∃ pk, pk ∈ session_get_products session ∧ lookup_row int db pk = None) →
   _prepare_basket int db session = Raise DoesNotExist)
  ∧ ((∀ pk, pk ∈ session_get_products session → is_Some (lookup_row int db pk)) →
     ∃ basket basket_total,
       _prepare_basket int db session = Ok (basket, basket_total)).
Proof.
  intros Hparse. split.
  - intros (pk & Hin & Hrow). apply prepare_loop_missing.
    + apply Forall_forall. intros [pk' q] Hin'. apply Hparse, get_totals_keys.
      apply list_elem_of_fmap. by exists (pk', q).
    + apply get_totals_keys, list_elem_of_fmap in Hin as ([pk' q] & -> & Hin).
      apply Exists_exists. by exists (pk', q).
  - intros Hall.
    destruct (prepare_loop_found db (_get_totals session) [] 0)
      as (lines & Heq & _).
    { apply Forall_forall. intros [pk q] Hin. apply Hall, get_totals_keys.
      apply list_elem_of_fmap. by exists (pk, q). }
    unfold _prepare_basket. rewrite Heq. by eexists _, _.
Qed.

End Totals.

Example get_totals_773 : _get_totals basket_773 = [("7", 2%nat); ("3", 1%nat)].
Proof. vm_compute. reflexivity. Qed.

Example prepare_basket_773 :
  _prepare_basket decimal_int catalog basket_773 =
  Ok ([ {| product := pizza; qty := 2; total := 2000 |};
        {| product := cola; qty := 1; total := 500 |} ], 2500).
Proof. vm_compute. reflexivity. Qed.

Lemma prepare_basket_total_witness :
  (∀ pk, pk ∈ session_get_products basket_773 →
         is_Some (lookup_row decimal_int catalog pk))
  ∧ ∃ basket,
      _prepare_basket decimal_int catalog basket_773 =
        Ok (basket,
            sum_Z ((λ line, price (product line) * Z.of_nat (qty line)) <$> basket))
      ∧ Forall2 (line_of_entry decimal_int catalog) basket (_get_totals basket_773).
Proof.
  assert (∀ pk, pk ∈ session_get_products basket_773 →
                is_Some (lookup_row decimal_int catalog pk)) as Hall.
  { intros pk Hin. cbn in Hin.
    repeat (apply elem_of_cons in Hin as [->|Hin]; [by eexists|]).
    by apply not_elem_of_nil in Hin. }
  split; [exact Hall|].
  exact (prepare_basket_total decimal_int catalog basket_773 Hall).
Defined.

(** C6 as stated fails for a soft-deleted product: product 7 is added to
    the basket, then deleted through the delete view, and the totals are
    still computed, with product 7 in them. *)
Lemma prepare_basket_after_soft_delete :
  in_order <$> lookup_row decimal_int catalog_without_pizza "7" = Some false
  ∧ (∃ basket basket_total,
       _prepare_basket decimal_int catalog_without_pizza
         (apply_op decimal_int catalog empty_session (Add "7"))
       = Ok (basket, basket_total))
  ∧ ¬ ∀ db session pk p,
        pk ∈ session_get_products session →
        lookup_row decimal_int db pk = Some p → in_order p = false →
        raises (_prepare_basket decimal_int db session).
Proof.
  split; [by vm_compute|]. split.
  - eexists _, _. vm_compute. reflexivity.
  - intros H.
    destruct (H catalog_without_pizza
                (apply_op decimal_int catalog empty_session (Add "7")) "7"
                {| name := "pizza"; category := "food"; price := 1000;
                   photo := "pizza.png"; in_order := false |}) as [e He].
    + vm_compute. left.
    + by vm_compute.
    + reflexivity.
    + vm_compute in He. discriminate He.
Qed.

Lemma prepare_basket_missing_row_witness :
  (∀ pk, pk ∈ session_get_products basket_773 → is_Some (decimal_int pk))
  ∧ _prepare_basket decimal_int catalog_row_removed basket_773 = Raise DoesNotExist.
Proof.
  assert (∀ pk, pk ∈ session_get_products basket_773 →
                is_Some (decimal_int pk)) as Hparse.
  { intros pk Hin. cbn in Hin.
    repeat (apply elem_of_cons in Hin as [->|Hin]; [by eexists|]).
    by apply not_elem_of_nil in Hin. }
  split; [exact Hparse|].
  apply (prepare_basket_missing_row decimal_int catalog_row_removed basket_773
           Hparse).
  exists "7". split; [left|reflexivity].
Defined.

(** ** BasketView: checkout *)



Lemma basket_empty_true session :
  _basket_empty session = true ↔ session_get_products session = [].
Proof.
  unfold _basket_empty. rewrite bool_decide_eq_true.
  by destruct (session_get_products session).
Qed.

Lemma clean_basket_keys session :
  products (_clean_basket session) = None
  ∧ products_count (_clean_basket session) = None.
Proof.
  unfold _clean_basket.
  destruct session as [[l|] [n|]]; cbn; by split.
Qed.

Section Checkout.

Variable int : string → option Z.

Lemma get_object_or_404_Ok db pk p :
  get_object_or_404 int db (Some pk) = Ok p
  ↔ ∃ n, int pk = Some n ∧ key_in_range n ∧ product_table db !! n = Some p.
Proof.
  unfold get_object_or_404. destruct (int pk) as [n|].
  - destruct (decide (key_in_range n)) as [Hrange|Hrange].
    + destruct (product_table db !! n) as [p'|] eqn:Hrow.
      * split; [intros [= ->]; by exists n|].
        intros (n' & [= <-] & _ & Hp). congruence.
      * split; [done|]. intros (n' & [= <-] & _ & Hp). congruence.
    + split; [done|]. by intros (n' & [= <-] & Hin & _).
  - split; [done|]. by intros (n' & Hn & _).
Qed.

Lemma add_finds_product_table db db' pk :
  product_table db' = product_table db → add_finds int db' pk → add_finds int db pk.
Proof.
  intros Htable [p Hp]. exists p. apply get_object_or_404_Ok.
  apply get_object_or_404_Ok in Hp. by rewrite <- Htable.
Qed.

Lemma add_finds_lookup_row db pk : add_finds int db pk → is_Some (lookup_row int db pk).
Proof.
  intros [p (n & Hn & _ & Hrow)%get_object_or_404_Ok].
  unfold lookup_row. rewrite Hn, Hrow. by eexists.
Qed.

(** What one create does. *)
Lemma OrderProduct_objects_create_spec db pk object q :
  match OrderProduct_objects_create int db pk object q with
  | Ok db' =>
      ∃ n, int pk = Some n ∧ add_finds int db pk
           ∧ db' = {| product_table := product_table db;
                      order_table := order_table db;
                      order_product_table :=
                        order_product_table db
                        ++ [{| product_id := n; order := order_pk object;
                               amount := q |}] |}
  | Raise e =>
      (e = ValueError ∨ e = OverflowError ∨ e = IntegrityError)
      ∧ ¬ add_finds int db pk
  end.
Proof.
  unfold OrderProduct_objects_create.
  destruct (int pk) as [n|] eqn:Hn; cbn.
  - destruct (decide (key_in_range n)) as [Hrange|Hrange].
    + destruct (product_table db !! n) as [p|] eqn:Hrow.
      * exists n. split; [done|]. split; [|done].
        exists p. apply get_object_or_404_Ok. by exists n.
      * split; [auto|]. intros [p (n' & Hn' & _ & Hp)%get_object_or_404_Ok].
        congruence.
    + split; [auto|]. intros [p (n' & Hn' & Hin & _)%get_object_or_404_Ok].
      congruence.
  - split; [auto|]. intros [p (n' & Hn' & _)%get_object_or_404_Ok]. congruence.
Qed.

(** What the loop of creates does: it writes no other table, keeps the
    rows there were, and appends the rows of the entries up to the first
    one whose product the lookup does not find; there it stops with the
    exception of the create. *)
Lemma save_loop_spec db items object :
  product_table (save_loop int db items object).1 = product_table db
  ∧ order_table (save_loop int db items object).1 = order_table db
  ∧ ∃ rows,
      order_product_table (save_loop int db items object).1
        = order_product_table db ++ rows
      ∧ Forall2 (λ row entry, row_of_entry int object row entry
                              ∧ add_finds int db entry.1)
                rows (take (length rows) items)
      ∧ match (save_loop int db items object).2 with
        | None => length rows = length items
        | Some e =>
            (e = ValueError ∨ e = OverflowError ∨ e = IntegrityError)
            ∧ ∃ entry, items !! length rows = Some entry
                       ∧ ¬ add_finds int db entry.1
        end.
Proof.
  revert db. induction items as [|[pk q] items IH]; intros db; cbn [save_loop].
  - split; [done|]. split; [done|]. exists []. by rewrite app_nil_r.
  - pose proof (OrderProduct_objects_create_spec db pk object q) as Hcreate.
    destruct (OrderProduct_objects_create int db pk object q) as [db'|e].
    + destruct Hcreate as (n & Hn & Hfound & ->).
      destruct (IH {| product_table := product_table db;
                      order_table := order_table db;
                      order_product_table :=
                        order_product_table db
                        ++ [{| product_id := n; order := order_pk object;
                               amount := q |}] |})
        as (Hproducts & Horders & rows & Hrows & Hall & Hend).
      split; [done|]. split; [done|].
      exists ({| product_id := n; order := order_pk object; amount := q |} :: rows).
      split; [rewrite Hrows; cbn; by rewrite <- app_assoc|]. split.
      * cbn. constructor; [by split|].
        eapply Forall2_impl; [exact Hall|]. intros row entry [Hrow Hfind].
        split; [done|]. eapply add_finds_product_table; [|exact Hfind]. done.
      * destruct (save_loop int _ items object).2 as [e|]; cbn.
        -- destruct Hend as (He & entry & Hentry & Hnot). split; [done|].
           exists entry. split; [done|]. intros Hfind. apply Hnot.
           destruct Hfind as [p Hp]. exists p. apply get_object_or_404_Ok.
           by apply get_object_or_404_Ok in Hp.
        -- by rewrite Hend.
    + cbn. split; [done|]. split; [done|]. exists [].
      split; [by rewrite app_nil_r|]. split; [constructor|].
      destruct Hcreate as [He Hnot]. split; [done|]. by exists (pk, q).
Qed.

(** When the lookup finds every entry, the loop goes through. *)
Lemma save_loop_found db items object :
  Forall (λ entry, add_finds int db entry.1) items →
  ∃ rows,
    save_loop int db items object =
      ({| product_table := product_table db;
          order_table := order_table db;
          order_product_table := order_product_table db ++ rows |}, None)
    ∧ Forall2 (row_of_entry int object) rows items.
Proof.
  intros Hfound.
  destruct (save_loop_spec db items object)
    as (Hproducts & Horders & rows & Hrows & Hall & Hend).
  destruct (save_loop int db items object) as [db' outcome]. cbn in *.
  destruct outcome as [e|].
  - destruct Hend as (_ & entry & Hentry & Hnot). destruct Hnot.
    by apply (proj1 (Forall_lookup _ _) Hfound (length rows)).
  - exists rows. split.
    + destruct db'. cbn in *. by subst.
    + rewrite Hend, firstn_all in Hall.
      eapply Forall2_impl; [exact Hall|]. by intros row entry [Hrow _].
Qed.

Lemma get_totals_all_found db session :
  (∀ pk, pk ∈ session_get_products session → add_finds int db pk) →
  Forall (λ entry, add_finds int db entry.1) (_get_totals session).
Proof.
  intros Hall. apply Forall_forall. intros [pk q] Hin.
  apply Hall, get_totals_keys, list_elem_of_fmap. by exists (pk, q).
Qed.




Lemma form_invalid_empty db session form :
  session_get_products session = [] →
  form_invalid int db session form =
  Ok (db, session, render "product/basket.html" (errors form) [] 0).
Proof.
  intros Hempty. unfold form_invalid, _prepare_basket, _get_totals.
  by rewrite Hempty.
Qed.

Lemma form_invalid_outcome db session form :
  raises (form_invalid int db session form)
  ∨ ∃ basket basket_total,
      form_invalid int db session form =
      Ok (db, session,
          render "product/basket.html" (errors form) basket basket_total).
Proof.
  unfold form_invalid.
  destruct (_prepare_basket int db session) as [[basket basket_total]|e]; cbn.
  - right. by eexists _, _.
  - left. by eexists.
Qed.

(** What a valid form on a basket that is not empty does when the lookup
    finds every reference. *)
Lemma BasketView_post_valid db session request_user now form :
  is_valid form = true →
  _basket_empty session = false →
  (∀ pk, pk ∈ session_get_products session → add_finds int db pk) →
  ∃ rows,
    BasketView_post int db session request_user now form =
      Ok ({| product_table := product_table db;
             order_table :=
               order_table db ++ [(form_save db request_user now form).2];
             order_product_table := order_product_table db ++ rows |},
          _clean_basket session, redirect (reverse "webapp:index"))
    ∧ Forall2 (row_of_entry int (form_save db request_user now form).2)
              rows (_get_totals session).
Proof.
  intros Hvalid Hnonempty Hfound.
  unfold BasketView_post, BasketView_form_valid. rewrite Hvalid, Hnonempty.
  set (object := (form_save db request_user now form).2).
  set (db1 := (form_save db request_user now form).1).
  replace (form_save db request_user now form) with (db1, object) by done.
  unfold _save_order_products.
  destruct (save_loop_found db1 (_get_totals session) object)
    as (rows & -> & Hrows).
  { apply get_totals_all_found. intros pk Hin.
    destruct (Hfound pk Hin) as [p Hp]. exists p.
    apply get_object_or_404_Ok. by apply get_object_or_404_Ok in Hp. }
  by exists rows.
Qed.


(** C2: a form submitted on an empty basket comes back with errors, on the
    basket page with no lines, and the database and the session are as
    they were; when the form itself was valid the error is the one of the
    empty basket. *)
Theorem checkout_empty_basket db session request_user now form :
  _basket_empty session = true →
  ∃ form_errors,
    BasketView_post int db session request_user now form =
      Ok (db, session, render "product/basket.html" form_errors [] 0)
    ∧ form_errors ≠ []
    ∧ (is_valid form = true → form_errors = [basket_empty_message]).
Proof.
  intros Hempty. pose proof Hempty as Hnil. apply basket_empty_true in Hnil.
  unfold BasketView_post, BasketView_form_valid. rewrite Hempty.
  destruct (is_valid form) eqn:Hvalid.
  - exists (errors (add_error form basket_empty_message)).
    rewrite form_invalid_empty by done. split; [done|].
    unfold is_valid in Hvalid. apply bool_decide_eq_true in Hvalid.
    cbn. rewrite Hvalid. by split.
  - exists (errors form). rewrite form_invalid_empty by done.
    split; [done|]. split; [|done].
    unfold is_valid in Hvalid. by apply bool_decide_eq_false in Hvalid.
Qed.

(** C8: a form that fails validation goes to form_invalid, whatever the
    basket holds: the request either raises while the basket page is
    built, or answers that page with the form's errors; in both cases no
    row is written and the session keeps both keys as they were. *)
Theorem checkout_rejected_form db session request_user now form :
  is_valid form = false →
  _basket_empty session = false →
  BasketView_post int db session request_user now form =
    form_invalid int db session form
  ∧ (raises (BasketView_post int db session request_user now form)
     ∨ ∃ basket basket_total,
         BasketView_post int db session request_user now form =
         Ok (db, session,
             render "product/basket.html" (errors form) basket basket_total)).
Proof.
  intros Hinvalid _. unfold BasketView_post. rewrite Hinvalid.
  split; [done|]. apply form_invalid_outcome.
Qed.

End Checkout.

Example checkout_773 :
  BasketView_post decimal_int catalog basket_773 alice 100 order_form =
  Ok ({| product_table := product_table catalog;
         order_table :=
           [ {| order_pk := 1; user := Some 1; first_name := "Alice";
                last_name := "A"; phone := "555"; email := "alice@example.org";
                status := status_new; created_at := 100 |} ];
         order_product_table :=
           [ {| product_id := 7; order := 1; amount := 2 |};
             {| product_id := 3; order := 1; amount := 1 |} ] |},
      empty_session, redirect (reverse "webapp:index")).
Proof. vm_compute. reflexivity. Qed.

Lemma basket_773_found pk :
  pk ∈ session_get_products basket_773 → add_finds decimal_int catalog pk.
Proof.
  intros Hin. cbn in Hin.
  repeat (apply elem_of_cons in Hin as [->|Hin]; [by eexists|]).
  by apply not_elem_of_nil in Hin.
Defined.



Lemma checkout_empty_basket_witness :
  _basket_empty empty_session = true
  ∧ ∃ form_errors,
      BasketView_post decimal_int catalog empty_session alice 100 order_form =
        Ok (catalog, empty_session,
            render "product/basket.html" form_errors [] 0)
      ∧ form_errors ≠ []
      ∧ (is_valid order_form = true → form_errors = [basket_empty_message]).
Proof.
  split; [reflexivity|].
  apply (checkout_empty_basket decimal_int catalog empty_session alice 100
           order_form).
  reflexivity.
Defined.

Lemma checkout_rejected_form_witness :
  is_valid rejected_form = false
  ∧ _basket_empty basket_773 = false
  ∧ BasketView_post decimal_int catalog basket_773 alice 100 rejected_form =
      form_invalid decimal_int catalog basket_773 rejected_form
  ∧ (raises (BasketView_post decimal_int catalog basket_773 alice 100 rejected_form)
     ∨ ∃ basket basket_total,
         BasketView_post decimal_int catalog basket_773 alice 100 rejected_form =
         Ok (catalog, basket_773,
             render "product/basket.html" (errors rejected_form)
                    basket basket_total)).
Proof.
  split; [reflexivity|]. split; [reflexivity|].
  apply (checkout_rejected_form decimal_int catalog basket_773 alice 100
           rejected_form); reflexivity.
Defined.

(** ** ProductDeleteView.delete *)

(** C9: deleting a product keeps its row and every field of it but
    in_order, which becomes false; no other row of any table changes. *)
Theorem product_delete_is_soft db pk product :
  product_table db !! pk = Some product →
  ∃ db',
    ProductDeleteView_delete db pk = Ok (db', redirect (reverse "webapp:index"))
    ∧ product_table db' !! pk =
        Some {| name := name product; category := category product;
                price := price product; photo := photo product;
                in_order := false |}
    ∧ (∀ pk', pk' ≠ pk → product_table db' !! pk' = product_table db !! pk')
    ∧ dom (product_table db') = dom (product_table db)
    ∧ order_table db' = order_table db
    ∧ order_product_table db' = order_product_table db.
Proof.
  intros Hrow. unfold ProductDeleteView_delete. rewrite Hrow.
  eexists. split; [reflexivity|]. cbn. split_and!; try done.
  - apply lookup_insert_eq.
  - intros pk' Hne. by apply lookup_insert_ne.
  - rewrite dom_insert_L. apply (elem_of_dom_2 (D := gset Z)) in Hrow. set_solver.
Qed.

Lemma product_delete_is_soft_witness :
  product_table catalog !! 7 = Some pizza
  ∧ ∃ db',
      ProductDeleteView_delete catalog 7 =
        Ok (db', redirect (reverse "webapp:index"))
      ∧ product_table db' !! 7 =
          Some {| name := "pizza"; category := "food"; price := 1000;
                  photo := "pizza.png"; in_order := false |}
      ∧ product_table db' !! 3 = Some cola.
Proof.
  split; [reflexivity|].
  destruct (product_delete_is_soft catalog 7 pizza eq_refl)
    as (db' & Hdelete & Hrow & Hothers & _).
  exists db'. split; [exact Hdelete|]. split; [exact Hrow|].
  rewrite Hothers by lia. reflexivity.
Defined.

(** ** The two session keys over a run of requests *)

Section SessionKeys.

Variable int : string → option Z.

Lemma BasketChangeView_get_session db GET session session' response :
  BasketChangeView_get int db GET session = Ok (session', response) →
  ∃ l, session' = {| products := Some l; products_count := Some (length l) |}.
Proof.
  unfold BasketChangeView_get.
  match goal with
  | |- context [mbind _ ?m] => destruct m as [l|e]
  end; cbn; [|done].
  destruct (shortcuts_redirect _) as [response'|e]; cbn; [|done].
  intros [= <- _]. by exists l.
Qed.

Lemma BasketView_post_session db session request_user now form db' session' response :
  BasketView_post int db session request_user now form = Ok (db', session', response) →
  session' = session ∨ session' = _clean_basket session.
Proof.
  assert (∀ f, form_invalid int db session f = Ok (db', session', response) →
               session' = session) as Hinvalid.
  { intros f. destruct (form_invalid_outcome int db session f)
      as [[e ->]|(b & t & ->)]; [done|]. by intros [= _ <- _]. }
  unfold BasketView_post, BasketView_form_valid.
  destruct (is_valid form); [|by left; eapply Hinvalid].
  destruct (_basket_empty session); [by left; eapply Hinvalid|].
  destruct (form_save db request_user now form) as [db1 object].
  destruct (_save_order_products int db1 session object) as [db2 [e|]]; [done|].
  intros [= _ <- _]. by right.
Qed.

Lemma serve_keys_together session request :
  keys_together session → keys_together (serve int session request).
Proof.
  intros Hkeys. destruct request as [db GET|db request_user now form]; cbn.
  - destruct (BasketChangeView_get int db GET session)
      as [[session' response]|e] eqn:Hget; [|done].
    by apply BasketChangeView_get_session in Hget as [l ->].
  - destruct (BasketView_post int db session request_user now form)
      as [[[db' session'] response]|e] eqn:Hpost; [|done].
    apply BasketView_post_session in Hpost as [->| ->]; [done|].
    unfold keys_together.
    by destruct (clean_basket_keys session) as [-> ->].
Qed.

Lemma keys_together_count_consistent session :
  keys_together session → count_consistent session.
Proof.
  unfold keys_together, count_consistent, session_get_products.
  by destruct (products session), (products_count session).
Qed.

Lemma list_remove_elem_of x pk l : x ∈ list_remove pk l → x ∈ l.
Proof.
  induction l as [|y l IH]; [done|]. cbn [list_remove].
  destruct (decide (y = pk)); [by right|].
  rewrite !elem_of_cons. intros [->|Hin]; [by left|right; by apply IH].
Qed.

(** A reference of the basket a request leaves was there before, or is the
    one the request added, for a product found and in_order. *)
Lemma BasketChangeView_get_references db GET session session' response pk :
  BasketChangeView_get int db GET session = Ok (session', response) →
  pk ∈ session_get_products session' →
  pk ∈ session_get_products session
  ∨ (GET_pk GET = Some pk ∧ GET_action GET = Some "add"
     ∧ purchasable int db pk = true).
Proof.
  destruct GET as [[s|] action next];
    destruct (decide (action = Some "add")) as [->|Hne].
  - rewrite BasketChangeView_get_add.
    destruct (get_object_or_404 int db (Some s)) as [p|e] eqn:Hfind; [|done].
    cbn zeta. destruct (shortcuts_redirect _) as [response'|e]; [|done].
    destruct (in_order p) eqn:Hp; intros [= <- _];
      unfold session_get_products at 1;
      cbn [products default from_option id GET_pk GET_action]; [|by left].
    rewrite elem_of_app, list_elem_of_singleton. intros [Hin| ->]; [by left|].
    right. unfold purchasable. by rewrite Hfind.
  - rewrite BasketChangeView_get_remove by done. cbn zeta.
    destruct (shortcuts_redirect _) as [response'|e]; [|done].
    intros [= <- _]. cbn. intros Hin%list_remove_elem_of. by left.
  - done.
  - unfold BasketChangeView_get. cbn [GET_pk GET_action GET_next].
    destruct (decide (action = Some "add")); [done|]. cbn.
    rewrite remove_loop_None.
    destruct (shortcuts_redirect _) as [response'|e]; cbn; [|done].
    intros [= <- _]. by left.
Qed.

Lemma purchasable_add_finds db pk :
  purchasable int db pk = true → add_finds int db pk.
Proof.
  unfold purchasable, add_finds.
  destruct (get_object_or_404 int db (Some pk)) as [p|e]; [by exists p|done].
Qed.

(** Over any run of requests on a new session, every reference in the
    basket reads as a product id: it went through the lookup of an add. *)
Lemma served_references_parse requests pk :
  pk ∈ session_get_products (foldl (serve int) empty_session requests) →
  is_Some (int pk).
Proof.
  assert (∀ session,
    (∀ pk, pk ∈ session_get_products session → is_Some (int pk)) →
    ∀ pk, pk ∈ session_get_products (foldl (serve int) session requests) →
          is_Some (int pk)) as Hrun.
  { induction requests as [|request requests IH]; intros session Hinv; [done|].
    cbn [foldl]. apply IH. clear IH. intros pk'.
    destruct request as [db GET|db request_user now form]; cbn [serve].
    - destruct (BasketChangeView_get int db GET session)
        as [[session' response]|e] eqn:Hget; [|by apply Hinv].
      intros Hin.
      destruct (BasketChangeView_get_references _ _ _ _ _ _ Hget Hin)
        as [Hold|(_ & _ & Hbuy)]; [by apply Hinv|].
      apply purchasable_add_finds in Hbuy as [p Hp].
      unfold get_object_or_404 in Hp. by destruct (int pk').
    - destruct (BasketView_post int db session request_user now form)
        as [[[db' session'] response]|e] eqn:Hpost; [|by apply Hinv].
      apply BasketView_post_session in Hpost as [->| ->]; [by apply Hinv|].
      unfold session_get_products.
      destruct (clean_basket_keys session) as [-> _]. cbn.
      by intros ?%not_elem_of_nil. }
  apply Hrun. cbn. by intros ? ?%not_elem_of_nil.
Qed.

(** C10: a basket-change request that answers leaves the count key equal
    to the length of the list it leaves; _clean_basket removes both keys;
    and so, over any run of basket-change and checkout requests on a new
    session, the count key is the length of the list whenever present. *)
Theorem products_count_is_length :
  (∀ db GET session,
     match BasketChangeView_get int db GET session with
     | Ok (session', _) =>
         products_count session' = Some (length (session_get_products session'))
     | Raise _ => True
     end)
  ∧ (∀ session,
       products (_clean_basket session) = None
       ∧ products_count (_clean_basket session) = None)
  ∧ (∀ requests,
       count_consistent (foldl (serve int) empty_session requests)).
Proof.
  split_and!.
  - intros db GET session.
    destruct (BasketChangeView_get int db GET session)
      as [[session' response]|e] eqn:Hget; [|done].
    by apply BasketChangeView_get_session in Hget as [l ->].
  - apply clean_basket_keys.
  - intros requests. apply keys_together_count_consistent.
    assert (keys_together empty_session) as Hinit by done.
    revert Hinit. generalize empty_session as session.
    induction requests as [|request requests IH]; intros session Hkeys; [done|].
    cbn [foldl]. by apply IH, serve_keys_together.
Qed.

End SessionKeys.

(** ** OrderListView.get_queryset *)

#[global] Instance created_after_total : Total created_after.
Proof. intros a b. unfold created_after. lia. Qed.

#[global] Instance created_after_trans : Transitive created_after.
Proof. intros a b c. unfold created_after. lia. Qed.

(** X13: with the permission to view orders the list holds every order of
    the table, each as often as the table does, later ones first. *)
Lemma order_list_privileged db request_user :
  has_perm request_user "webapp.view_order" = true →
  ∃ rows,
    OrderListView_get_queryset db request_user = Ok rows
    ∧ rows ≡ₚ order_table db
    ∧ Sorted created_after rows.
Proof.
  intros Hperm. unfold OrderListView_get_queryset. rewrite Hperm.
  eexists. split; [reflexivity|]. split.
  - apply merge_sort_Permutation.
  - apply (Sorted_merge_sort created_after).
Qed.

(** X14: without it a logged-in user gets exactly the orders of the table
    that are theirs, in the order of the table, and no order of anybody
    else. *)
Lemma order_list_unprivileged db u :
  has_perm (Authenticated u) "webapp.view_order" = false →
  ∃ rows,
    OrderListView_get_queryset db (Authenticated u) = Ok rows
    ∧ rows = filter (λ o, user o = Some (user_pk u)) (order_table db)
    ∧ ∀ o, o ∈ rows ↔ o ∈ order_table db ∧ user o = Some (user_pk u).
Proof.
  intros Hperm. unfold OrderListView_get_queryset. rewrite Hperm.
  eexists. split; [reflexivity|]. split; [reflexivity|].
  intros o. rewrite list_elem_of_filter. tauto.
Qed.

Lemma order_list_anonymous db :
  OrderListView_get_queryset db AnonymousUser = Raise AttributeError.
Proof. reflexivity. Qed.

(** C4: for a user without the permission the list is not ordered: the
    branch has no order_by, and the customer's two orders come back as the
    table holds them, the earlier one first. *)
Theorem order_list_unprivileged_not_sorted :
  has_perm alice "webapp.view_order" = false
  ∧ OrderListView_get_queryset two_orders alice = Ok [first_order; second_order]
  ∧ ¬ Sorted created_after [first_order; second_order].
Proof.
  split; [reflexivity|]. split; [reflexivity|].
  intros Hsorted. apply Sorted_inv in Hsorted as [_ Hhd].
  apply HdRel_inv in Hhd. unfold created_after in Hhd. cbn in Hhd. lia.
Qed.

(** * Further properties of the views *)

(** ** BasketChangeView.get: removing *)

Lemma list_remove_first pk l1 l2 :
  pk ∉ l1 → list_remove pk (l1 ++ pk :: l2) = l1 ++ l2.
Proof.
  induction l1 as [|x l1 IH]; cbn [list_remove app].
  - intros _. by rewrite decide_True.
  - rewrite not_elem_of_cons. intros [Hne Hnin].
    rewrite decide_False by congruence. by rewrite IH.
Qed.





(** X3: adding a purchasable product and then removing it leaves every
    quantity of the basket as it was; the list of references itself is as
    it was when it did not hold the product before. *)
Theorem add_then_remove int db session pk :
  purchasable int db pk = true →
  let session' := apply_op int db (apply_op int db session (Add pk)) (Remove pk) in
  (∀ k, aggregate_quantity session' k = aggregate_quantity session k)
  ∧ (pk ∉ session_get_products session →
     session_get_products session' = session_get_products session).
Proof.
  intros Hbuy session'. split.
  - intros k. unfold session'. rewrite !aggregate_quantity_apply_op.
    cbn [replay_step]. rewrite Hbuy. by destruct (decide (pk = k)).
  - intros Hnin. unfold session'. rewrite apply_op_Remove, apply_op_Add, Hbuy.
    rewrite (list_remove_first pk _ []) by done. apply app_nil_r.
Qed.

Lemma add_then_remove_witness :
  purchasable decimal_int catalog "7" = true
  ∧ ∀ k,
      aggregate_quantity
        (apply_op decimal_int catalog
           (apply_op decimal_int catalog basket_773 (Add "7")) (Remove "7")) k
      = aggregate_quantity basket_773 k.
Proof.
  split; [reflexivity|].
  apply (add_then_remove decimal_int catalog basket_773 "7"). reflexivity.
Defined.

(** ** BasketView._get_totals *)

Lemma totals_incr_quantities p totals :
  Forall (λ entry, 1 ≤ entry.2)%nat totals →
  Forall (λ entry, 1 ≤ entry.2)%nat (totals_incr p totals)
  ∧ sum_list (totals_incr p totals).*2 = S (sum_list totals.*2).
Proof.
  induction totals as [|[k n] totals IH]; cbn [totals_incr].
  - intros _. split; [by repeat constructor|done].
  - intros [Hn Htl]%Forall_cons. destruct (decide (k = p)) as [->|Hne].
    + split; [constructor; [cbn; lia|done]|done].
    + destruct (IH Htl) as [Hall Hsum]. split; [by constructor|].
      cbn. cbn in Hsum. rewrite Hsum. lia.
Qed.

(** X5: in the totals every quantity is at least 1, and the quantities add
    up to the number of references in the basket. *)
Theorem get_totals_quantities session :
  Forall (λ entry, 1 ≤ entry.2)%nat (_get_totals session)
  ∧ sum_list (_get_totals session).*2 = length (session_get_products session).
Proof.
  unfold _get_totals.
  assert (∀ l totals,
    Forall (λ entry, 1 ≤ entry.2)%nat totals →
    Forall (λ entry, 1 ≤ entry.2)%nat
      (foldl (λ totals p, totals_incr p totals) totals l)
    ∧ sum_list (foldl (λ totals p, totals_incr p totals) totals l).*2
      = (sum_list totals.*2 + length l)%nat) as Hrun.
  { induction l as [|x l IH]; intros totals Hall; cbn [foldl].
    - split; [done|]. cbn. lia.
    - destruct (totals_incr_quantities x totals Hall) as [Hall' Hsum'].
      destruct (IH _ Hall') as [Hres Hsum]. split; [done|].
      rewrite Hsum, Hsum'. cbn. lia. }
  destruct (Hrun (session_get_products session) []) as [Hall Hsum]; [done|].
  by split.
Qed.

Lemma totals_incr_fst p totals :
  (totals_incr p totals).*1 =
  if decide (p ∈ totals.*1) then totals.*1 else totals.*1 ++ [p].
Proof.
  induction totals as [|[k n] totals IH]; cbn [totals_incr].
  - rewrite decide_False; [done|apply not_elem_of_nil].
  - destruct (decide (k = p)) as [->|Hne]; cbn.
    + rewrite decide_True; [done|left].
    + rewrite IH. destruct (decide (p ∈ totals.*1)) as [Hin|Hnin].
      * rewrite decide_True; [done|by right].
      * rewrite decide_False; [done|]. rewrite not_elem_of_cons. by split.
Qed.

(** X6: the totals list the distinct references of the basket in the order
    of their first occurrence, which is then the order of the lines of the
    basket page and of the rows a checkout creates. *)
Theorem get_totals_first_occurrences session :
  (_get_totals session).*1 = first_occurrences [] (session_get_products session).
Proof.
  unfold _get_totals.
  assert (∀ l totals,
    (foldl (λ totals p, totals_incr p totals) totals l).*1
    = totals.*1 ++ first_occurrences totals.*1 l) as Hrun.
  { induction l as [|x l IH]; intros totals; cbn [foldl first_occurrences].
    - by rewrite app_nil_r.
    - rewrite IH, totals_incr_fst.
      destruct (decide (x ∈ totals.*1)); [done|].
      by rewrite <- app_assoc. }
  by rewrite Hrun.
Qed.

(** ** BasketView._prepare_basket *)

Lemma entries_sum_incr (f : string → Z) p totals :
  sum_Z ((λ entry, f entry.1 * Z.of_nat entry.2) <$> totals_incr p totals)
  = sum_Z ((λ entry, f entry.1 * Z.of_nat entry.2) <$> totals) + f p.
Proof.
  unfold sum_Z.
  induction totals as [|[k n] totals IH]; cbn [totals_incr].
  - cbn. lia.
  - destruct (decide (k = p)) as [->|Hne]; cbn; [lia|].
    cbn in IH. rewrite IH. lia.
Qed.

Lemma entries_sum_foldl (f : string → Z) l totals :
  sum_Z ((λ entry, f entry.1 * Z.of_nat entry.2)
           <$> foldl (λ totals p, totals_incr p totals) totals l)
  = sum_Z ((λ entry, f entry.1 * Z.of_nat entry.2) <$> totals) + sum_Z (f <$> l).
Proof.
  revert totals. induction l as [|x l IH]; intros totals; cbn [foldl].
  - unfold sum_Z. cbn. lia.
  - rewrite IH, entries_sum_incr. unfold sum_Z. cbn. lia.
Qed.

Lemma lines_sum_entries int db lines items :
  Forall2 (line_of_entry int db) lines items →
  sum_Z (total <$> lines)
  = sum_Z ((λ entry, reference_price int db entry.1 * Z.of_nat entry.2) <$> items).
Proof.
  unfold sum_Z.
  induction 1 as [|line [pk q] lines items (Hrow & Hqty & Htotal) _ IH]; [done|].
  cbn. cbn in Hrow, Hqty. rewrite IH, Htotal, Hqty.
  unfold reference_price. by rewrite Hrow.
Qed.

(** X7: when every reference of the basket has its product, the total of
    the basket is the sum, over the references as the session lists them,
    of the price of the product each one denotes: every reference counts
    once, however the references are grouped. *)
Theorem prepare_basket_total_by_reference int db session :
  (∀ pk, pk ∈ session_get_products session → is_Some (lookup_row int db pk)) →
  ∃ basket,
    _prepare_basket int db session =
    Ok (basket, sum_Z (reference_price int db <$> session_get_products session)).
Proof.
  intros Hall.
  destruct (prepare_loop_found int db (_get_totals session) [] 0)
    as (lines & Heq & Hlines).
  { apply Forall_forall. intros [pk q] Hin. apply Hall, get_totals_keys.
    apply list_elem_of_fmap. by exists (pk, q). }
  exists lines. unfold _prepare_basket. rewrite Heq. cbn [app].
  rewrite (lines_sum_entries _ _ _ _ Hlines). unfold _get_totals.
  rewrite entries_sum_foldl. unfold sum_Z. cbn. do 2 f_equal.
Qed.

Lemma prepare_basket_total_by_reference_witness :
  (∀ pk, pk ∈ session_get_products basket_773 →
         is_Some (lookup_row decimal_int catalog pk))
  ∧ ∃ basket,
      _prepare_basket decimal_int catalog basket_773 =
      Ok (basket, sum_Z [1000; 1000; 500]).
Proof.
  assert (∀ pk, pk ∈ session_get_products basket_773 →
                is_Some (lookup_row decimal_int catalog pk)) as Hall.
  { intros pk Hin. cbn in Hin.
    repeat (apply elem_of_cons in Hin as [->|Hin]; [by eexists|]).
    by apply not_elem_of_nil in Hin. }
  split; [exact Hall|].
  exact (prepare_basket_total_by_reference decimal_int catalog basket_773 Hall).
Defined.

(** ** BasketView._save_order_products and form_valid *)

Lemma Forall2_amounts int object rows (items : list (string * nat)) :
  Forall2 (λ row entry, row_of_entry int object row entry) rows items →
  amount <$> rows = items.*2.
Proof.
  induction 1 as [|row entry rows items (_ & _ & Hamount) _ IH]; [done|].
  cbn. by rewrite Hamount, IH.
Qed.

(** X8: _save_order_products writes no other table and keeps every row
    there was.  The rows it appends all belong to the given order, have an
    amount of at least 1 and point to a row of the product table that a
    reference of the basket denotes.  It goes through exactly when the
    lookup of an add finds every reference of the basket, and then the
    amounts add up to the number of references; otherwise it stops at the
    first reference that is not found, with ValueError, OverflowError or
    IntegrityError, the rows created before staying. *)
Theorem save_order_products_amounts int db session object :
  let outcome := _save_order_products int db session object in
  product_table outcome.1 = product_table db
  ∧ order_table outcome.1 = order_table db
  ∧ ∃ rows,
      order_product_table outcome.1 = order_product_table db ++ rows
      ∧ Forall (λ row, order row = order_pk object
                       ∧ (1 ≤ amount row)%nat
                       ∧ is_Some (product_table db !! product_id row)
                       ∧ ∃ pk, pk ∈ session_get_products session
                               ∧ int pk = Some (product_id row)) rows
      ∧ match outcome.2 with
        | None =>
            (∀ pk, pk ∈ session_get_products session → add_finds int db pk)
            ∧ sum_list (amount <$> rows) = length (session_get_products session)
        | Some e =>
            (e = ValueError ∨ e = OverflowError ∨ e = IntegrityError)
            ∧ ∃ pk, pk ∈ session_get_products session ∧ ¬ add_finds int db pk
        end.
Proof.
  intros outcome. unfold outcome, _save_order_products.
  destruct (save_loop_spec int db (_get_totals session) object)
    as (Hproducts & Horders & rows & Hrows & Hall & Hend).
  destruct (get_totals_quantities session) as [Hpos Hsum].
  split; [done|]. split; [done|]. exists rows. split; [done|]. split.
  - apply Forall_forall. intros row Hin.
    apply list_elem_of_lookup in Hin as [i Hi].
    destruct (Forall2_lookup_l _ _ _ _ _ Hall Hi)
      as ([pk q] & Hentry & (Hint & Horder & Hamount) & Hfound).
    apply lookup_take_Some in Hentry as [Hentry _].
    apply list_elem_of_lookup_2 in Hentry. cbn in Hint, Hamount, Hfound.
    split; [done|]. split_and!.
    + rewrite Hamount. by apply (proj1 (Forall_forall _ _) Hpos (pk, q)).
    + destruct Hfound as [p (n & Hn & _ & Hrow)%get_object_or_404_Ok].
      assert (n = product_id row) as <- by congruence. by eexists.
    + exists pk. split; [|done].
      apply get_totals_keys, list_elem_of_fmap. by exists (pk, q).
  - destruct (save_loop int db (_get_totals session) object).2 as [e|].
    + destruct Hend as (He & [pk q] & Hentry & Hnot). split; [done|].
      exists pk. split; [|done].
      apply list_elem_of_lookup_2 in Hentry.
      apply get_totals_keys, list_elem_of_fmap. by exists (pk, q).
    + rewrite Hend, firstn_all in Hall. split.
      * intros pk (entry & -> & Hin)%get_totals_keys%list_elem_of_fmap.
        apply list_elem_of_lookup in Hin as [i Hi].
        by destruct (Forall2_lookup_r _ _ _ _ _ Hall Hi) as (row & _ & _ & Hfound).
      * rewrite <- Hsum. f_equal. apply (Forall2_amounts int object).
        eapply Forall2_impl; [exact Hall|]. by intros row entry [Hrow _].
Qed.

(** X9: submitting a valid form again after a checkout that went through
    creates nothing: the basket is empty by then, so the second request
    answers the basket page with the empty-basket error and leaves the
    database and the session as the first one left them. *)
Theorem checkout_twice int db session request_user now form
    request_user' now' form' :
  is_valid form = true →
  _basket_empty session = false →
  (∀ pk, pk ∈ session_get_products session → add_finds int db pk) →
  is_valid form' = true →
  ∃ db' session',
    BasketView_post int db session request_user now form =
      Ok (db', session', redirect (reverse "webapp:index"))
    ∧ BasketView_post int db' session' request_user' now' form' =
      Ok (db', session',
          render "product/basket.html" [basket_empty_message] [] 0).
Proof.
  intros Hvalid Hnonempty Hfound Hvalid'.
  destruct (BasketView_post_valid int db session request_user now form)
    as (rows & Hpost & _); try done.
  eexists _, _. split; [exact Hpost|].
  assert (session_get_products (_clean_basket session) = []) as Hnil.
  { unfold session_get_products.
    by destruct (clean_basket_keys session) as [-> _]. }
  unfold BasketView_post, BasketView_form_valid. rewrite Hvalid'.
  rewrite (proj2 (basket_empty_true _) Hnil).
  rewrite form_invalid_empty by done. cbn.
  unfold is_valid in Hvalid'. apply bool_decide_eq_true in Hvalid'.
  by rewrite Hvalid'.
Qed.

Lemma checkout_twice_witness :
  is_valid order_form = true
  ∧ _basket_empty basket_773 = false
  ∧ (∀ pk, pk ∈ session_get_products basket_773 →
           add_finds decimal_int catalog pk)
  ∧ ∃ db' session',
      BasketView_post decimal_int catalog basket_773 alice 100 order_form =
        Ok (db', session', redirect (reverse "webapp:index"))
      ∧ BasketView_post decimal_int db' session' alice 101 order_form =
        Ok (db', session',
            render "product/basket.html" [basket_empty_message] [] 0).
Proof.
  split; [reflexivity|]. split; [reflexivity|].
  split; [exact basket_773_found|].
  apply (checkout_twice decimal_int catalog basket_773 alice 100 order_form
           alice 101 order_form); [reflexivity..|exact basket_773_found|reflexivity].
Defined.

(** ** ProductDeleteView.delete, IndexView.get_queryset and the basket *)

Lemma ProductDeleteView_delete_Ok db pk db' response :
  ProductDeleteView_delete db pk = Ok (db', response) →
  ∃ p,
    product_table db !! pk = Some p
    ∧ product_table db' =
        <[pk := {| name := name p; category := category p; price := price p;
                   photo := photo p; in_order := false |}]> (product_table db)
    ∧ order_table db' = order_table db
    ∧ order_product_table db' = order_product_table db
    ∧ response = redirect (reverse "webapp:index").
Proof.
  unfold ProductDeleteView_delete.
  destruct (product_table db !! pk) as [p|]; [|done].
  intros [= <- <-]. by exists p.
Qed.

(** X10: deleting a product a second time changes nothing more: the second
    request goes through and leaves the database the first one left. *)
Theorem product_delete_twice db pk db' response :
  ProductDeleteView_delete db pk = Ok (db', response) →
  ProductDeleteView_delete db' pk = Ok (db', response).
Proof.
  intros (p & Hrow & Htable & Horders & Hlines & ->)%ProductDeleteView_delete_Ok.
  unfold ProductDeleteView_delete. rewrite Htable, lookup_insert_eq. cbn.
  rewrite insert_insert_eq. destruct db' as [t o l]. cbn in *. by subst.
Qed.

Lemma product_delete_twice_witness :
  ProductDeleteView_delete catalog 7 =
    Ok (catalog_without_pizza, redirect (reverse "webapp:index"))
  ∧ ProductDeleteView_delete catalog_without_pizza 7 =
    Ok (catalog_without_pizza, redirect (reverse "webapp:index")).
Proof.
  split; [reflexivity|].
  apply (product_delete_twice catalog 7). reflexivity.
Defined.



(** X12: a delete takes the product, and only it, off the rows the index
    lists, while its row stays in the table. *)
Theorem index_after_delete db pk db' response :
  ProductDeleteView_delete db pk = Ok (db', response) →
  IndexView_get_queryset db' = delete pk (IndexView_get_queryset db)
  ∧ IndexView_get_queryset db' !! pk = None
  ∧ is_Some (product_table db' !! pk).
Proof.
  intros (p & Hrow & Htable & _)%ProductDeleteView_delete_Ok.
  unfold IndexView_get_queryset. rewrite Htable.
  assert (filter (λ row : Z * Product, in_order row.2 = true)
            (<[pk := {| name := name p; category := category p;
                        price := price p; photo := photo p;
                        in_order := false |}]> (product_table db))
          = delete pk (filter (λ row : Z * Product, in_order row.2 = true)
                         (product_table db))) as Heq.
  { rewrite map_filter_insert_False by done. by rewrite map_filter_delete. }
  rewrite Heq. split; [done|]. split.
  - apply lookup_delete_eq.
  - rewrite lookup_insert_eq. by eexists.
Qed.

Lemma index_after_delete_witness :
  ProductDeleteView_delete catalog 7 =
    Ok (catalog_without_pizza, redirect (reverse "webapp:index"))
  ∧ IndexView_get_queryset catalog_without_pizza
    = delete 7 (IndexView_get_queryset catalog).
Proof.
  split; [reflexivity|].
  apply (index_after_delete catalog 7 catalog_without_pizza
           (redirect (reverse "webapp:index"))).
  reflexivity.
Defined.

(** ** OrderListView and OrderDetailView *)

Lemma order_list_privileged_witness :
  has_perm manager "webapp.view_order" = true
  ∧ ∃ rows,
      OrderListView_get_queryset two_orders manager = Ok rows
      ∧ rows ≡ₚ [first_order; second_order]
      ∧ Sorted created_after rows.
Proof.
  split; [reflexivity|].
  apply (order_list_privileged two_orders manager). reflexivity.
Defined.

Lemma order_list_unprivileged_witness :
  has_perm alice "webapp.view_order" = false
  ∧ ∃ rows,
      OrderListView_get_queryset two_orders alice = Ok rows
      ∧ rows = filter (λ o, user o = Some 1) (order_table two_orders)
      ∧ ∀ o, o ∈ rows ↔ o ∈ order_table two_orders ∧ user o = Some 1.
Proof.
  split; [reflexivity|].
  apply (order_list_unprivileged two_orders {| user_pk := 1; permissions := [] |}).
  reflexivity.
Defined.


(** ** OrderDeliverView and OrderCancelView *)

Lemma OrderDeliverView_get_status_view db pk :
  OrderDeliverView_get db pk = status_view status_delivered db pk.
Proof. reflexivity. Qed.

Lemma OrderCancelView_get_status_view db pk :
  OrderCancelView_get db pk = status_view status_canceled db pk.
Proof. reflexivity. Qed.

Lemma Order_get_object_or_404_Ok db pk o :
  Order_get_object_or_404 db pk = Ok o → o ∈ order_table db ∧ order_pk o = pk.
Proof.
  unfold Order_get_object_or_404.
  destruct (list_find _ _) as [[i o']|] eqn:Hfind; [|done]. intros [= ->].
  by apply list_find_Some in Hfind as (Hrow%list_elem_of_lookup_2 & Hpk & _).
Qed.






Lemma Order_get_object_or_404_is_Ok db pk :
  pk ∈ order_pk <$> order_table db → ∃ o, Order_get_object_or_404 db pk = Ok o.
Proof.
  intros (o & -> & Hin)%list_elem_of_fmap. unfold Order_get_object_or_404.
  destruct (list_find_elem_of (λ o', order_pk o' = order_pk o) _ o Hin eq_refl)
    as [[i o'] Hfind].
  rewrite Hfind. by exists o'.
Qed.

Lemma Order_save_get db pk o new_status :
  Order_get_object_or_404 db pk = Ok o →
  Order_get_object_or_404 (Order_save db (set_status o new_status)) pk
  = Ok (set_status o new_status).
Proof.
  intros Hget. pose proof (Order_get_object_or_404_Ok _ _ _ Hget) as [_ Hpk].
  unfold Order_get_object_or_404 in *. cbn [Order_save order_table].
  destruct (list_find (λ o', order_pk o' = pk) (order_table db))
    as [[i o']|] eqn:Hfind; [|done].
  injection Hget as ->. rewrite list_find_fmap.
  rewrite (list_find_ext _ (λ o', order_pk o' = pk)).
  - rewrite Hfind. cbn. by rewrite decide_True.
  - intros row. cbn.
    destruct (decide (order_pk row = order_pk o)); [|done].
    cbn [set_status order_pk]. split; congruence.
Qed.

Lemma Order_save_twice db o status1 status2 :
  Order_save (Order_save db (set_status o status1))
             (set_status (set_status o status1) status2)
  = Order_save db (set_status o status2).
Proof.
  unfold Order_save. cbn. f_equal. rewrite <- list_fmap_compose.
  apply list_fmap_ext. intros i row _. cbn.
  destruct (decide (order_pk row = order_pk o)) as [Heq|Hne].
  - by rewrite decide_True.
  - by rewrite decide_False.
Qed.

Lemma status_view_then status1 status2 db pk db1 to :
  status_view status1 db pk = Ok (db1, to) →
  status_view status2 db1 pk = status_view status2 db pk.
Proof.
  unfold status_view.
  destruct (Order_get_object_or_404 db pk) as [o|e] eqn:Hget; [|done].
  cbn. intros [= <- _].
  rewrite (Order_save_get _ _ _ _ Hget). cbn. by rewrite Order_save_twice.
Qed.

(** X17: the two status views have no guard on the present status: for an
    order in the table both go through whatever its status, cancelling a
    delivered order leaves what cancelling alone leaves, delivering a
    canceled order leaves what delivering alone leaves, and delivering
    twice is delivering once. *)
Theorem order_status_last_write_wins db pk :
  pk ∈ order_pk <$> order_table db →
  ∃ delivered canceled to,
    OrderDeliverView_get db pk = Ok (delivered, to)
    ∧ OrderCancelView_get db pk = Ok (canceled, to)
    ∧ OrderCancelView_get delivered pk = Ok (canceled, to)
    ∧ OrderDeliverView_get canceled pk = Ok (delivered, to)
    ∧ OrderDeliverView_get delivered pk = Ok (delivered, to).
Proof.
  intros [o Hget]%Order_get_object_or_404_is_Ok.
  assert (∀ new_status, status_view new_status db pk =
            Ok (Order_save db (set_status o new_status), order_detail_url (order_pk o)))
    as Hview.
  { intros new_status. unfold status_view. by rewrite Hget. }
  exists (Order_save db (set_status o status_delivered)),
         (Order_save db (set_status o status_canceled)),
         (order_detail_url (order_pk o)).
  split_and!.
  - rewrite OrderDeliverView_get_status_view. apply Hview.
  - rewrite OrderCancelView_get_status_view. apply Hview.
  - rewrite OrderCancelView_get_status_view.
    by rewrite (status_view_then _ _ _ _ _ _ (Hview status_delivered)).
  - rewrite OrderDeliverView_get_status_view.
    by rewrite (status_view_then _ _ _ _ _ _ (Hview status_canceled)).
  - rewrite OrderDeliverView_get_status_view.
    by rewrite (status_view_then _ _ _ _ _ _ (Hview status_delivered)).
Qed.

Lemma order_status_last_write_wins_witness :
  2 ∈ order_pk <$> order_table two_orders
  ∧ ∃ delivered canceled to,
      OrderDeliverView_get two_orders 2 = Ok (delivered, to)
      ∧ OrderCancelView_get delivered 2 = Ok (canceled, to)
      ∧ order_table canceled =
          [first_order; set_status second_order status_canceled].
Proof.
  assert (2 ∈ order_pk <$> order_table two_orders) as Hin by (cbn; right; left).
  split; [exact Hin|].
  destruct (order_status_last_write_wins two_orders 2 Hin)
    as (delivered & canceled & to & Hdeliver & Hcancel & Hthen & _).
  exists delivered, canceled, to. split; [exact Hdeliver|]. split; [exact Hthen|].
  assert (Ok (canceled, to) =
          Ok ({| product_table := product_table two_orders;
                 order_table := [first_order; set_status second_order status_canceled];
                 order_product_table := [] |}, order_detail_url 2)) as Heq.
  { rewrite <- Hcancel. reflexivity. }
  injection Heq as -> _. reflexivity.
Defined.

(** ** Runs of requests: the basket page *)

Lemma lookup_row_product_table int db db' pk :
  product_table db' = product_table db →
  lookup_row int db' pk = lookup_row int db pk.
Proof. intros Heq. unfold lookup_row. by rewrite Heq. Qed.

Lemma BasketView_post_product_table int db session request_user now form
    db' session' response :
  BasketView_post int db session request_user now form
    = Ok (db', session', response) →
  product_table db' = product_table db.
Proof.
  assert (∀ f, form_invalid int db session f = Ok (db', session', response) →
               product_table db' = product_table db) as Hinvalid.
  { intros f. destruct (form_invalid_outcome int db session f)
      as [[e ->]|(b & t & ->)]; [done|]. by intros [= <- _ _]. }
  unfold BasketView_post, BasketView_form_valid.
  destruct (is_valid form); [|by apply Hinvalid].
  destruct (_basket_empty session); [by apply Hinvalid|].
  cbn. unfold _save_order_products.
  match goal with
  | |- context [save_loop int ?d ?i ?o] =>
      destruct (save_loop_spec int d i o) as (Htable & _);
      destruct (save_loop int d i o) as [db2 [e|]]
  end; [done|].
  cbn in Htable. by intros [= <- _ _].
Qed.

(** What a checkout leaves, whether it answers or raises: the product
    table as it was, and the session as it was or cleared. *)
Lemma BasketView_post_leaves_spec int db session request_user now form :
  product_table (BasketView_post_leaves int db session request_user now form).1
    = product_table db
  ∧ ((BasketView_post_leaves int db session request_user now form).2 = session
     ∨ (BasketView_post_leaves int db session request_user now form).2
       = _clean_basket session).
Proof.
  unfold BasketView_post_leaves.
  destruct (BasketView_post int db session request_user now form)
    as [[[db' session'] response]|e] eqn:Hpost.
  - split; [by eapply BasketView_post_product_table|].
    by eapply BasketView_post_session.
  - destruct (is_valid form && negb (_basket_empty session)); [|by split; [|left]].
    cbn. split; [|by left]. unfold _save_order_products.
    match goal with
    | |- context [save_loop int ?d ?i ?o] =>
        by destruct (save_loop_spec int d i o) as (-> & _)
    end.
Qed.

Lemma status_view_product_table new_status db pk db' to :
  status_view new_status db pk = Ok (db', to) →
  product_table db' = product_table db.
Proof.
  unfold status_view.
  destruct (Order_get_object_or_404 db pk) as [o|e]; [|done].
  cbn. by intros [= <- _].
Qed.

Lemma shop_serve_basket_resolves int state request :
  basket_resolves int state → basket_resolves int (shop_serve int state request).
Proof.
  destruct state as [db session]. unfold basket_resolves. cbn [fst snd].
  intros Hinv.
  destruct request as [GET|request_user now form|n|n|n]; cbn [shop_serve].
  - destruct (BasketChangeView_get int db GET session)
      as [[session' response]|e] eqn:Hget; [|done].
    cbn [fst snd]. intros pk Hin.
    destruct (BasketChangeView_get_references _ _ _ _ _ _ _ Hget Hin)
      as [Hold|(_ & _ & Hbuy)]; [by apply Hinv|].
    by apply add_finds_lookup_row, purchasable_add_finds.
  - destruct (BasketView_post_leaves_spec int db session request_user now form)
      as [Htable Hsession].
    destruct (BasketView_post_leaves int db session request_user now form)
      as [db' session']. cbn [fst snd] in *. intros pk Hin.
    rewrite (lookup_row_product_table int db db') by done.
    destruct Hsession as [->| ->]; [by apply Hinv|].
    unfold session_get_products in Hin.
    destruct (clean_basket_keys session) as [Hnone _]. rewrite Hnone in Hin.
    by apply not_elem_of_nil in Hin.
  - destruct (ProductDeleteView_delete db n) as [[db' response]|e] eqn:Hdel;
      [|done].
    apply ProductDeleteView_delete_Ok in Hdel as (p & Hrow & Htable & _).
    cbn [fst snd]. intros pk Hin. specialize (Hinv pk Hin).
    unfold lookup_row in *. destruct (int pk) as [k|]; [|done].
    rewrite Htable. destruct (decide (n = k)) as [->|Hne].
    + rewrite lookup_insert_eq. by eexists.
    + by rewrite lookup_insert_ne.
  - rewrite OrderDeliverView_get_status_view.
    destruct (status_view status_delivered db n) as [[db' to]|e] eqn:Hview;
      [|done].
    cbn [fst snd]. intros pk Hin.
    rewrite (lookup_row_product_table int db db')
      by by eapply status_view_product_table.
    by apply Hinv.
  - rewrite OrderCancelView_get_status_view.
    destruct (status_view status_canceled db n) as [[db' to]|e] eqn:Hview;
      [|done].
    cbn [fst snd]. intros pk Hin.
    rewrite (lookup_row_product_table int db db')
      by by eapply status_view_product_table.
    by apply Hinv.
Qed.

(** X4: over any run of basket changes, checkouts, product deletes and
    order status changes that starts from a new session, on any database,
    every reference in the basket keeps a row in the product table, so the
    totals of the basket page are always computed: _prepare_basket does
    not raise. *)
Theorem basket_page_never_raises int db requests :
  let state := foldl (shop_serve int) (db, empty_session) requests in
  basket_resolves int state
  ∧ ∃ basket basket_total,
      _prepare_basket int state.1 state.2 = Ok (basket, basket_total).
Proof.
  intros state.
  assert (basket_resolves int state) as Hinv.
  { unfold state.
    assert (basket_resolves int (db, empty_session)) as Hinit.
    { intros pk Hin. by apply not_elem_of_nil in Hin. }
    revert Hinit. generalize (db, empty_session) as start.
    induction requests as [|request requests IH]; intros start Hstart; [done|].
    cbn [foldl]. by apply IH, shop_serve_basket_resolves. }
  split; [done|].
  destruct (prepare_loop_found int state.1 (_get_totals state.2) [] 0)
    as (lines & Heq & _).
  { apply Forall_forall. intros [pk q] Hin. apply Hinv, get_totals_keys.
    apply list_elem_of_fmap. by exists (pk, q). }
  unfold _prepare_basket. rewrite Heq. by eexists _, _.
Qed.
